(** * Tailwind pedal-assist controller: torque sensing and telemetry access

    A shallow embedding of [src/torque_sensor.cpp] (calibration and
    evaluation of the torque sensor), of the mode-control write handler of
    [src/ble_telemetry.cpp] and of the telemetry readers of
    [src/ble_telemetry.cpp] and [src/wifi_telemetry.cpp], with the
    properties the specification states about them; and of the bridge of
    [src/vesc_bridge.cpp], the command handler and the current
    characteristic of [src/ble_telemetry.cpp], with further properties of
    the code.

    The header [ebike_controller.h] is not among the files covered here:
    the constants it defines ([TORQUE_CALIBRATION_SAMPLES], [TORQUE_MAX_NM],
    ...) are section variables, so every result holds for each value they
    may have, unless a hypothesis says otherwise. *)

From Stdlib Require Import ZArith List Bool Lia.
From Stdlib Require Import Floats.SpecFloat.
From Stdlib Require Import Strings.Byte Strings.String.
From Stdlib Require Import Sorting.Permutation.
Import ListNotations.

Local Open Scope Z_scope.

(** ** Machine integers of the ESP32 (ILP32: [int], [long] and
       [unsigned long] are 32 bits wide) *)

Module MachineInt.

Definition INT_MIN : Z := -2147483648.
Definition INT_MAX : Z := 2147483647.
Definition LONG_MAX : Z := 2147483647.

(** Two's complement wrap-around of a signed 32-bit result. *)
Definition wrap_int (z : Z) : Z := (z + 2147483648) mod 4294967296 - 2147483648.

(** [long] has the width of [int] on this target. *)
Definition wrap_long (z : Z) : Z := wrap_int z.

(** Wrap-around of an [unsigned long] result. *)
Definition wrap_ulong (z : Z) : Z := z mod 4294967296.

Definition in_int (z : Z) : Prop := INT_MIN <= z <= INT_MAX.

(** [abs] on [int]. *)
Definition int_abs (z : Z) : Z := wrap_int (Z.abs z).

End MachineInt.
Import MachineInt.

(** ** Torque sensor calibration ([calibrate_torque_sensor]) *)

(** The two globals the calibration writes. *)
Record CalibrationState : Type := {
  torque_standstill_calibrated : Z;
  torque_calibration_complete : bool
}.

Definition is_torque_calibration_complete (s : CalibrationState) : bool :=
  torque_calibration_complete s.

(** What the hardware answers during one run: [millis_at k] is the result of
    the [k]-th call of [millis()], [analogRead_at k] the result of the
    [k]-th call of [analogRead(TORQUE_SENSOR_PIN)], both counted from 0. *)
Record Hardware : Type := {
  millis_at : nat -> Z;
  analogRead_at : nat -> Z
}.

(** The sanity check of the sampling loop. *)
Definition reading_in_range (reading : Z) : bool :=
  (100 <=? reading) && (reading <=? 3995).

(** The locals [total_readings] and [valid_samples]. *)
Record Accumulator : Type := {
  total_readings : Z;
  valid_samples : Z
}.

(** The verdict the run prints on the serial line when it ends:
    ["TORQUE CALIBRATION: Skipped - Debug mode active"],
    ["=== TORQUE CALIBRATION COMPLETED ==="] or
    ["TORQUE CALIBRATION: FAILED - Only %d/%d valid samples"].  (The lines
    printed per sample are left out.) *)
Inductive SerialVerdict : Type :=
| Printed_skipped
| Printed_completed
| Printed_failed.

(** What a run leaves behind: the two globals and the serial verdict. *)
Record CalibrationRun : Type := {
  globals_after : CalibrationState;
  serial_verdict : SerialVerdict
}.

(** Outcome of a run: [Undefined] stands for the integer division by zero
    of [total_readings / valid_samples]. *)
Inductive Outcome (A : Type) : Type :=
| Returns (a : A)
| Undefined.
Arguments Returns {A} a.
Arguments Undefined {A}.

Section Calibration.

Variable TORQUE_CALIBRATION_SAMPLES : Z.
Variable TORQUE_CALIBRATION_TIMEOUT_MS : Z.
Variable TORQUE_STANDSTILL_DEFAULT : Z.

(** The [for] loop: [i] is the loop counter, [remaining] the number of
    iterations left before [i] reaches [TORQUE_CALIBRATION_SAMPLES].
    Iteration [i] makes call [S i] of [millis()] (call 0 set
    [start_time]) and, unless it breaks, call [i] of [analogRead]. *)
Fixpoint sampling_loop (hw : Hardware) (start_time : Z) (i remaining : nat)
         (acc : Accumulator) : Accumulator :=
  match remaining with
  | O => acc
  | S k =>
      if wrap_ulong (millis_at hw (S i) - start_time)
           >? wrap_ulong TORQUE_CALIBRATION_TIMEOUT_MS
      then acc
      else
        let reading := analogRead_at hw i in
        let acc' :=
          if reading_in_range reading
          then {| total_readings := wrap_long (total_readings acc + reading);
                  valid_samples := wrap_int (valid_samples acc + 1) |}
          else acc in
        sampling_loop hw start_time (S i) k acc'
  end.

Definition calibrate_torque_sensor (debug_mode : bool) (hw : Hardware)
  : Outcome CalibrationRun :=
  if debug_mode then
    Returns {| globals_after :=
                 {| torque_standstill_calibrated := TORQUE_STANDSTILL_DEFAULT;
                    torque_calibration_complete := true |};
               serial_verdict := Printed_skipped |}
  else
    let start_time := millis_at hw 0 in
    let acc := sampling_loop hw start_time 0
                 (Z.to_nat TORQUE_CALIBRATION_SAMPLES)
                 {| total_readings := 0; valid_samples := 0 |} in
    if Z.quot TORQUE_CALIBRATION_SAMPLES 2 <=? valid_samples acc then
      if valid_samples acc =? 0 then Undefined
      else
        Returns {| globals_after :=
                     {| torque_standstill_calibrated :=
                          wrap_int (Z.quot (total_readings acc) (valid_samples acc));
                        torque_calibration_complete := true |};
                   serial_verdict := Printed_completed |}
    else
      Returns {| globals_after :=
                   {| torque_standstill_calibrated := TORQUE_STANDSTILL_DEFAULT;
                      torque_calibration_complete := true |};
                 serial_verdict := Printed_failed |}.

(** *** The run as the specification describes it *)

(** The readings the loop takes before it ends or times out. *)
Fixpoint samples_taken (hw : Hardware) (start_time : Z) (i remaining : nat)
  : list Z :=
  match remaining with
  | O => []
  | S k =>
      if wrap_ulong (millis_at hw (S i) - start_time)
           >? wrap_ulong TORQUE_CALIBRATION_TIMEOUT_MS
      then []
      else analogRead_at hw i :: samples_taken hw start_time (S i) k
  end.

(** The samples accepted into [100, 3995] during a run. *)
Definition accepted_samples (hw : Hardware) : list Z :=
  filter reading_in_range
    (samples_taken hw (millis_at hw 0) 0 (Z.to_nat TORQUE_CALIBRATION_SAMPLES)).

Definition accepted_count (hw : Hardware) : Z :=
  Z.of_nat (List.length (accepted_samples hw)).

End Calibration.

Definition sum_of (l : list Z) : Z := fold_right Z.add 0 l.

(** [b] is the arithmetic mean of [l] rounded to an integer: no integer is
    closer to [sum_of l / length l] than [b] (either neighbour is allowed
    when the mean lies half-way). *)
Definition is_rounded_mean (b : Z) (l : list Z) : Prop :=
  Z.abs (2 * (b * Z.of_nat (List.length l) - sum_of l)) <= Z.of_nat (List.length l).

(** The four values of the specification's [CalibrationState.status]. *)
Inductive CalibrationStatus : Type :=
| NotStarted | InProgress | Complete | FailedUsingDefault.

(** The run that ends with the given baseline, the completion flag set, and
    the given verdict. *)
Definition run_ending (baseline : Z) (verdict : SerialVerdict) : CalibrationRun :=
  {| globals_after := {| torque_standstill_calibrated := baseline;
                         torque_calibration_complete := true |};
     serial_verdict := verdict |}.

(** Hardware whose clock stands still and whose ADC answers the given
    readings in turn (0 once they are used up). *)
Definition hardware_reading (readings : list Z) : Hardware :=
  {| millis_at := fun _ => 0;
     analogRead_at := fun k => nth k readings 0 |}.

(** ** Single-precision arithmetic

    [float] is IEEE 754 binary32; its operations are those of the standard
    library's executable specification of floating-point numbers at
    precision 24 and maximal exponent 128. *)

Module Float32.

Definition float : Type := spec_float.

Definition prec : Z := 24.
Definition emax : Z := 128.

(** The literal [0.0]. *)
Definition zero : float := S754_zero false.
Definition one : float := S754_finite false 8388608 (-23).

(** Conversion of an [int] to [float] (round to nearest, ties to even). *)
Definition of_int (z : Z) : float := binary_normalize prec emax z 0 false.

Definition div (x y : float) : float := SFdiv prec emax x y.
Definition mul (x y : float) : float := SFmul prec emax x y.
Definition ltb (x y : float) : bool := SFltb x y.
Definition leb (x y : float) : bool := SFleb x y.

(** The value of a finite number without its fraction. *)
Definition truncate (f : float) : option Z :=
  match f with
  | S754_zero _ => Some 0
  | S754_finite s m e =>
      Some (if s then - Z.shiftl (Zpos m) e else Z.shiftl (Zpos m) e)
  | _ => None
  end.

(** The cast [(int)f].  C++ gives the cast a value only when [truncate f]
    fits an [int]; outside, the model returns the nearest bound ([INT_MAX]
    for a NaN). *)
Definition to_int (f : float) : Z :=
  match truncate f with
  | Some z => Z.max INT_MIN (Z.min INT_MAX z)
  | None =>
      match f with
      | S754_infinity true => INT_MIN
      | _ => INT_MAX
      end
  end.

(** A finite number strictly above zero in canonical form: what a
    positive [float] constant is. *)
Definition positive_finite (x : float) : Prop :=
  exists m e, x = S754_finite false m e /\ valid_binary prec emax x = true.

(** [x] is a zero, an infinity or a finite number of sign [s]
    ([true] is minus): in particular not a NaN. *)
Definition signed_as (s : bool) (x : float) : Prop :=
  x = S754_zero s \/ x = S754_infinity s \/ exists m e, x = S754_finite s m e.

(** [x] is zero or a finite number below [2 ^ k] in magnitude. *)
Definition below_pow2 (k : Z) (x : float) : Prop :=
  (exists s, x = S754_zero s)
  \/ exists s m e, x = S754_finite s m e /\ Zdigits2 (Zpos m) + e <= k.

End Float32.

(** ** Torque evaluation ([update_torque]) *)

(** The globals [update_torque] reads and writes. *)
Record SensorGlobals : Type := {
  debug_mode : bool;
  debug_simulate_torque : bool;
  debug_torque_nm : Float32.float;
  calibration : CalibrationState;
  raw_torque_value : Z;
  crank_torque_nm : Float32.float;
  filtered_torque : Float32.float
}.

Section Evaluation.

Variable TORQUE_MAX_BACKWARD : Z.
Variable TORQUE_MAX_FORWARD : Z.
Variable TORQUE_THRESHOLD : Z.
(** Taken to be a constant of type [float]. *)
Variable TORQUE_MAX_NM : Float32.float.
(** [update_debug_simulation] is defined in a file not covered here; it
    drives [debug_torque_nm]. *)
Variable update_debug_simulation : SensorGlobals -> SensorGlobals.

(** [adc] is what [analogRead(TORQUE_SENSOR_PIN)] answers when the normal
    path calls it. *)
Definition update_torque (g : SensorGlobals) (adc : Z) : SensorGlobals :=
  if debug_mode g && debug_simulate_torque g then
    let g := update_debug_simulation g in
    let standstill := torque_standstill_calibrated (calibration g) in
    let raw :=
      if Float32.ltb Float32.zero (debug_torque_nm g) then
        let torque_ratio := Float32.div (debug_torque_nm g) TORQUE_MAX_NM in
        let max_deviation :=
          Z.max (wrap_int (standstill - TORQUE_MAX_BACKWARD))
                (wrap_int (TORQUE_MAX_FORWARD - standstill)) in
        let simulated_deviation :=
          Float32.to_int (Float32.mul torque_ratio (Float32.of_int max_deviation)) in
        wrap_int (standstill + simulated_deviation)
      else standstill in
    {| debug_mode := debug_mode g;
       debug_simulate_torque := debug_simulate_torque g;
       debug_torque_nm := debug_torque_nm g;
       calibration := calibration g;
       raw_torque_value := raw;
       crank_torque_nm := debug_torque_nm g;
       filtered_torque := debug_torque_nm g |}
  else
    let standstill := torque_standstill_calibrated (calibration g) in
    let deviation_from_center := wrap_int (adc - standstill) in
    let absolute_deviation := int_abs deviation_from_center in
    let scaled :=
      if absolute_deviation <? TORQUE_THRESHOLD then Float32.zero
      else
        let max_deviation :=
          Z.max (wrap_int (standstill - TORQUE_MAX_BACKWARD))
                (wrap_int (TORQUE_MAX_FORWARD - standstill)) in
        Float32.mul
          (Float32.div (Float32.of_int absolute_deviation)
                       (Float32.of_int max_deviation))
          TORQUE_MAX_NM in
    let above := if Float32.ltb TORQUE_MAX_NM scaled then TORQUE_MAX_NM else scaled in
    let clamped := if Float32.ltb above Float32.zero then Float32.zero else above in
    {| debug_mode := debug_mode g;
       debug_simulate_torque := debug_simulate_torque g;
       debug_torque_nm := debug_torque_nm g;
       calibration := calibration g;
       raw_torque_value := adc;
       crank_torque_nm := clamped;
       filtered_torque := clamped |}.

(** The specification's [max_extent] for a baseline. *)
Definition max_extent (baseline : Z) : Z :=
  Z.max (baseline - TORQUE_MAX_BACKWARD) (TORQUE_MAX_FORWARD - baseline).

(** The physical extent that lies farther from the baseline (the backward
    one when both are as far). *)
Definition farther_extent (baseline : Z) : Z :=
  if TORQUE_MAX_FORWARD - baseline <=? baseline - TORQUE_MAX_BACKWARD
  then TORQUE_MAX_BACKWARD else TORQUE_MAX_FORWARD.

(** The other physical extent, the one nearer to the baseline. *)
Definition nearer_extent (baseline : Z) : Z :=
  if TORQUE_MAX_FORWARD - baseline <=? baseline - TORQUE_MAX_BACKWARD
  then TORQUE_MAX_FORWARD else TORQUE_MAX_BACKWARD.

(** The specification's scaling rule for a deviation of magnitude [d] and
    the extent [D]: [clamp(d / D * MAX_TORQUE_NM, 0, MAX_TORQUE_NM)], in
    single precision. *)
Definition scaled_and_clamped (d D : Z) : Float32.float :=
  let scaled :=
    Float32.mul (Float32.div (Float32.of_int d) (Float32.of_int D))
      TORQUE_MAX_NM in
  let above :=
    if Float32.ltb TORQUE_MAX_NM scaled then TORQUE_MAX_NM else scaled in
  if Float32.ltb above Float32.zero then Float32.zero else above.

End Evaluation.

(** Globals of a controller that is not in debug mode and whose calibration
    ended with the given baseline. *)
Definition globals_with_baseline (baseline : Z) : SensorGlobals :=
  {| debug_mode := false;
     debug_simulate_torque := false;
     debug_torque_nm := Float32.zero;
     calibration := {| torque_standstill_calibrated := baseline;
                       torque_calibration_complete := true |};
     raw_torque_value := 0;
     crank_torque_nm := Float32.zero;
     filtered_torque := Float32.zero |}.

(** Globals of a controller running the debug simulation. *)
Definition debug_globals_with_baseline (baseline : Z) : SensorGlobals :=
  {| debug_mode := true;
     debug_simulate_torque := true;
     debug_torque_nm := Float32.zero;
     calibration := {| torque_standstill_calibrated := baseline;
                       torque_calibration_complete := true |};
     raw_torque_value := 0;
     crank_torque_nm := Float32.zero;
     filtered_torque := Float32.zero |}.

(** A simulation that drives the target torque to [t]. *)
Definition simulate_target (t : Float32.float) (g : SensorGlobals) : SensorGlobals :=
  {| debug_mode := debug_mode g;
     debug_simulate_torque := debug_simulate_torque g;
     debug_torque_nm := t;
     calibration := calibration g;
     raw_torque_value := raw_torque_value g;
     crank_torque_nm := crank_torque_nm g;
     filtered_torque := filtered_torque g |}.

(** A simulation that leaves the globals alone. *)
Definition no_simulation (g : SensorGlobals) : SensorGlobals := g.

(** ** Mode control over BLE ([EBikeModeControlCallbacks::onWrite]) *)

(** The calls the handler makes, in order.  The profile name given to
    [addLogMessage] comes from the table [AVAILABLE_PROFILES], which is
    defined in a file not covered here: the call records the index looked
    up. *)
Inductive HandlerCall : Type :=
| Serial_printf (format : string) (argument : Z)
| Call_changeAssistMode (new_mode : Z)
| Call_addLogMessage (prefix : string) (argument : Z).

(** [uint8_t new_mode = value[0]]. *)
Definition uint8_of_char (c : byte) : Z := Z.of_N (Byte.to_N c).

Section ModeControl.

Variable NUM_ACTIVE_PROFILES : Z.

(** [value] is the payload [pCharacteristic->getValue()]. *)
Definition ModeControl_onWrite (value : list byte) : list HandlerCall :=
  match value with
  | [] => []
  | c :: _ =>
      let new_mode := uint8_of_char c in
      if new_mode <? NUM_ACTIVE_PROFILES then
        [ Serial_printf "BLE: Mode change request to %d"%string new_mode;
          Call_changeAssistMode new_mode;
          Call_addLogMessage "BLE Mode changed to: "%string new_mode ]
      else
        [ Serial_printf "BLE: Invalid mode %d requested"%string new_mode;
          Call_addLogMessage "BLE Invalid mode requested: "%string new_mode ]
  end.

(** The effect of the calls on the active mode: only [changeAssistMode]
    (defined in a file not covered here, hence a variable) touches it;
    [addLogMessage] is an empty stub and [Serial.printf] only prints. *)
Variable Mode : Type.
Variable changeAssistMode : Z -> Mode -> Mode.

Definition perform (c : HandlerCall) (active : Mode) : Mode :=
  match c with
  | Call_changeAssistMode m => changeAssistMode m active
  | _ => active
  end.

Definition active_mode_after (calls : list HandlerCall) (active : Mode) : Mode :=
  fold_left (fun a c => perform c a) calls active.

End ModeControl.

Arguments perform {Mode} changeAssistMode c active.
Arguments active_mode_after {Mode} changeAssistMode calls active.

(** ** Access to the shared telemetry

    [sharedVescData] and [sharedSensorData] are read by the BLE task
    ([updateBLETelemetryData]) and by the web server's status handler
    ([handleStatusAPI]); [dataUpdateSemaphore] is the one semaphore.  Tasks
    are sequences of accesses, interleaved by a scheduler. *)

Module Telemetry.

Inductive Field : Type :=
| Vesc_speed_kmh | Vesc_battery_percentage | Vesc_battery_voltage
| Vesc_actual_current | Vesc_temp_mosfet | Vesc_temp_motor
| Sensor_cadence_rpm | Sensor_filtered_torque | Sensor_current_mode
| Sensor_motor_enabled.

Definition Field_eqb (f g : Field) : bool :=
  match f, g with
  | Vesc_speed_kmh, Vesc_speed_kmh
  | Vesc_battery_percentage, Vesc_battery_percentage
  | Vesc_battery_voltage, Vesc_battery_voltage
  | Vesc_actual_current, Vesc_actual_current
  | Vesc_temp_mosfet, Vesc_temp_mosfet
  | Vesc_temp_motor, Vesc_temp_motor
  | Sensor_cadence_rpm, Sensor_cadence_rpm
  | Sensor_filtered_torque, Sensor_filtered_torque
  | Sensor_current_mode, Sensor_current_mode
  | Sensor_motor_enabled, Sensor_motor_enabled => true
  | _, _ => false
  end.

(** The struct a field belongs to: [true] for [sharedVescData]. *)
Definition in_vesc_data (f : Field) : bool :=
  match f with
  | Vesc_speed_kmh | Vesc_battery_percentage | Vesc_battery_voltage
  | Vesc_actual_current | Vesc_temp_mosfet | Vesc_temp_motor => true
  | _ => false
  end.

(** The shared structures: the value each field holds. *)
Definition Store : Type := Field -> Z.

Definition store_write (f : Field) (v : Z) (st : Store) : Store :=
  fun g => if Field_eqb g f then v else st g.

Inductive Instr : Type :=
| Take (guarded : nat)
    (** [if (xSemaphoreTake(dataUpdateSemaphore, pdMS_TO_TICKS(10)) == pdTRUE)]
        in front of a block of [guarded] instructions *)
| Give                        (** [xSemaphoreGive(dataUpdateSemaphore)] *)
| Read (f : Field)
| Write (f : Field) (v : Z).

Record Task : Type := {
  program : list Instr;            (** what is left to run *)
  observed : list (Field * Z)      (** the fields read so far, in order *)
}.

Record System : Type := {
  store : Store;
  holder : option nat;             (** the task holding the semaphore *)
  tasks : list Task
}.

(** What the scheduler and the tick timer can do: let a task run its next
    instruction, or let the 10 ms of its pending [xSemaphoreTake] expire. *)
Inductive Event : Type :=
| Run (tid : nat)
| Expire (tid : nat).

Fixpoint set_task (tid : nat) (t : Task) (ts : list Task) : list Task :=
  match ts, tid with
  | [], _ => []
  | _ :: rest, O => t :: rest
  | t0 :: rest, S k => t0 :: set_task k t rest
  end.

Definition holds (s : System) (tid : nat) : bool :=
  match holder s with
  | Some h => Nat.eqb h tid
  | None => false
  end.

Definition step (ev : Event) (s : System) : System :=
  match ev with
  | Run tid =>
      match nth_error (tasks s) tid with
      | Some {| program := Take _ :: rest; observed := obs |} =>
          match holder s with
          | None =>
              {| store := store s; holder := Some tid;
                 tasks := set_task tid {| program := rest; observed := obs |} (tasks s) |}
          | Some _ => s      (* blocked on the semaphore *)
          end
      | Some {| program := Give :: rest; observed := obs |} =>
          {| store := store s;
             holder := if holds s tid then None else holder s;
             tasks := set_task tid {| program := rest; observed := obs |} (tasks s) |}
      | Some {| program := Read f :: rest; observed := obs |} =>
          {| store := store s; holder := holder s;
             tasks := set_task tid
                        {| program := rest; observed := obs ++ [(f, store s f)] |}
                        (tasks s) |}
      | Some {| program := Write f v :: rest; observed := obs |} =>
          {| store := store_write f v (store s); holder := holder s;
             tasks := set_task tid {| program := rest; observed := obs |} (tasks s) |}
      | _ => s
      end
  | Expire tid =>
      match nth_error (tasks s) tid with
      | Some {| program := Take guarded :: rest; observed := obs |} =>
          match holder s with
          | Some _ =>
              {| store := store s; holder := holder s;
                 tasks := set_task tid
                            {| program := skipn guarded rest; observed := obs |}
                            (tasks s) |}
          | None => s
          end
      | _ => s
      end
  end.

Definition run (schedule : list Event) (s : System) : System :=
  fold_left (fun s ev => step ev s) schedule s.

(** The reads of [updateBLETelemetryData], in source order. *)
Definition ble_reads : list Field :=
  [ Vesc_speed_kmh; Sensor_cadence_rpm; Sensor_filtered_torque;
    Vesc_battery_percentage; Vesc_actual_current; Vesc_actual_current;
    Sensor_current_mode; Sensor_current_mode; Sensor_current_mode;
    Sensor_current_mode; Sensor_motor_enabled;
    Vesc_actual_current; Vesc_battery_voltage;
    Vesc_temp_mosfet; Vesc_temp_motor ].

Definition updateBLETelemetryData : list Instr :=
  Take (S (List.length ble_reads)) :: map Read ble_reads ++ [Give].

Definition handleStatusAPI : list Instr :=
  [ Read Vesc_speed_kmh; Read Vesc_battery_percentage;
    Read Sensor_current_mode; Read Sensor_filtered_torque ].

Definition vesc_fields : list Field :=
  [ Vesc_speed_kmh; Vesc_battery_percentage; Vesc_battery_voltage;
    Vesc_actual_current; Vesc_temp_mosfet; Vesc_temp_motor ].

(** Modelled from the spec: the producer operation [publish_controller]
    (the driver task that fills [sharedVescData] is not among the files
    covered here).  It "acquires exclusive access, applies its field
    updates atomically as a single transaction, and releases"; on
    time-out it drops the update.  Transaction [k] writes the tag [k] into
    every field, as in the specification's stress test. *)
Definition publish_controller (k : Z) : list Instr :=
  Take (S (List.length vesc_fields)) :: map (fun f => Write f k) vesc_fields ++ [Give].

(** An observation is untorn when all the [sharedVescData] fields in it
    carry the tag of one transaction. *)
Fixpoint untorn_from (tag : option Z) (obs : list (Field * Z)) : bool :=
  match obs with
  | [] => true
  | (f, v) :: rest =>
      if in_vesc_data f then
        match tag with
        | None => untorn_from (Some v) rest
        | Some t => (v =? t) && untorn_from tag rest
        end
      else untorn_from tag rest
  end.

Definition untorn (obs : list (Field * Z)) : bool := untorn_from None obs.

Definition observed_by (tid : nat) (s : System) : list (Field * Z) :=
  match nth_error (tasks s) tid with
  | Some t => observed t
  | None => []
  end.

Definition task_of (p : list Instr) : Task := {| program := p; observed := [] |}.

(** The driver publishes transaction 1, then transaction 2. *)
Definition driver_program : list Instr :=
  publish_controller 1 ++ publish_controller 2.

(** Bookkeeping for the proof that the BLE task reads untorn data: how far
    the driver ([pP]) and the BLE task ([pB]) have come in their programs. *)
Definition driver_inside (pP : nat) : bool :=
  (Nat.leb 1 pP && Nat.leb pP 7) || (Nat.leb 9 pP && Nat.leb pP 15).

Definition ble_inside (pB : nat) : bool := Nat.leb 1 pB && Nat.leb pB 16.

Definition holder_at (pP pB : nat) : option nat :=
  if driver_inside pP then Some 0%nat
  else if ble_inside pB then Some 1%nat else None.

(** The values of [vesc_fields] while the driver is at [pP], [c] being the
    tag of the last transaction committed. *)
Definition stored_at (pP : nat) (c : Z) : list Z :=
  if driver_inside pP then
    if Nat.leb pP 7 then repeat 1 (pP - 1) ++ repeat c (6 - (pP - 1))
    else repeat 2 (pP - 9) ++ repeat c (6 - (pP - 9))
  else repeat c 6.

Definition all_vesc_eq (c : Z) (obs : list (Field * Z)) : bool :=
  forallb (fun fv => if in_vesc_data (fst fv) then snd fv =? c else true) obs.

(** Task 0 is the driver publishing transactions 1 and 2, task 1 the BLE
    task, task 2 the web server answering one [/status] request; the
    structures start out zeroed. *)
Definition boot : System :=
  {| store := fun _ => 0;
     holder := None;
     tasks := [ task_of driver_program;
                task_of updateBLETelemetryData;
                task_of handleStatusAPI ] |}.

(** What holds of every state the three tasks can reach from [boot]: the
    semaphore is held by the task that is inside its guarded block, the
    driver writes only while it holds it, and what the BLE task has read
    carries one tag [c'], the tag [c] in store while it holds the
    semaphore. *)
Definition invariant (s : System) : Prop :=
  exists (pP pB pW : nat) (c c' : Z) (obsB obsW : list (Field * Z)),
    (pP <= 16)%nat /\ (pB <= 17)%nat /\ (pW <= 4)%nat
    /\ driver_inside pP && ble_inside pB = false
    /\ tasks s = [ {| program := skipn pP driver_program; observed := [] |};
                   {| program := skipn pB updateBLETelemetryData; observed := obsB |};
                   {| program := skipn pW handleStatusAPI; observed := obsW |} ]
    /\ holder s = holder_at pP pB
    /\ map (store s) vesc_fields = stored_at pP c
    /\ all_vesc_eq c' obsB = true
    /\ (ble_inside pB = true -> c' = c)
    /\ (pB = 0%nat -> obsB = []).

End Telemetry.

(** ** Further definitions *)

(** *** Consecutive control cycles *)

Section Cycles.

Variable TORQUE_MAX_BACKWARD : Z.
Variable TORQUE_MAX_FORWARD : Z.
Variable TORQUE_THRESHOLD : Z.
Variable TORQUE_MAX_NM : Float32.float.
Variable update_debug_simulation : SensorGlobals -> SensorGlobals.

(** [update_torque] called once per control cycle, the ADC answering the
    given readings in turn. *)
Definition update_torque_cycles (readings : list Z) (g : SensorGlobals)
  : SensorGlobals :=
  fold_left
    (update_torque TORQUE_MAX_BACKWARD TORQUE_MAX_FORWARD TORQUE_THRESHOLD
       TORQUE_MAX_NM update_debug_simulation)
    readings g.

End Cycles.

(** *** Calibration at startup, then control cycles *)

Section Startup.

Variable TORQUE_CALIBRATION_SAMPLES : Z.
Variable TORQUE_CALIBRATION_TIMEOUT_MS : Z.
Variable TORQUE_STANDSTILL_DEFAULT : Z.

(** [calibrate_torque_sensor] on the globals [update_torque] works with: it
    reads [debug_mode] and writes the two calibration globals. *)
Definition calibrate_globals (hw : Hardware) (g : SensorGlobals)
  : Outcome SensorGlobals :=
  match calibrate_torque_sensor TORQUE_CALIBRATION_SAMPLES
          TORQUE_CALIBRATION_TIMEOUT_MS TORQUE_STANDSTILL_DEFAULT
          (debug_mode g) hw with
  | Returns r =>
      Returns {| debug_mode := debug_mode g;
                 debug_simulate_torque := debug_simulate_torque g;
                 debug_torque_nm := debug_torque_nm g;
                 calibration := globals_after r;
                 raw_torque_value := raw_torque_value g;
                 crank_torque_nm := crank_torque_nm g;
                 filtered_torque := filtered_torque g |}
  | Undefined => Undefined
  end.

End Startup.

(** *** The VESC bridge ([src/vesc_bridge.cpp]) *)

Module Bridge.

Definition BUFFER_SIZE : Z := 512.
Definition BRIDGE_ACTIVITY_TIMEOUT : Z := 100.

(** What reaches the bridge from outside: [millis_answer k] is the result of
    the [k]-th call of [millis()]; [usb_arrival k] are the bytes that have
    come into the receive buffer of [Serial] since the previous call of
    [Serial.available()] when the [k]-th call looks at it, [vesc_arrival]
    likewise for [Serial2] (calls counted from 0). *)
Record Wire : Type := {
  millis_answer : nat -> Z;
  usb_arrival : nat -> list byte;
  vesc_arrival : nat -> list byte
}.

(** What is written to [Serial]: a byte forwarded from the VESC, or the
    statistics block that [printBridgeStats] prints (with the numbers it
    shows). *)
Inductive UsbOutput : Type :=
| Forwarded (b : byte)
| Statistics (uptime_s usb_to_vesc vesc_to_usb usb_ago vesc_ago : Z) (active : bool).

(** The receive buffers, what has been sent, the static variables of the
    file (with [last_stats] of [printBridgeStats]), the levels written to
    [BRIDGE_LED_PIN], and how many calls the hardware has answered. *)
Record State : Type := {
  usb_rx : list byte;
  usb_tx : list UsbOutput;
  vesc_rx : list byte;
  vesc_tx : list byte;
  last_usb_activity : Z;
  last_vesc_activity : Z;
  last_led_update : Z;
  led_state : bool;
  bytes_forwarded_usb_to_vesc : Z;
  bytes_forwarded_vesc_to_usb : Z;
  last_stats : Z;
  led_pin : list bool;
  millis_calls : nat;
  usb_checks : nat;
  vesc_checks : nat
}.

(** One direction of forwarding while its loop runs: the receive buffer read
    from, what has been written to the other side, the activity stamp, the
    calls answered so far and the local [bytes_forwarded]. *)
Record Transfer (A : Type) : Type := {
  source : list byte;
  sink : list A;
  stamp : Z;
  checks : nat;
  clock_calls : nat;
  bytes_forwarded : Z
}.
Arguments source {A} t.
Arguments sink {A} t.
Arguments stamp {A} t.
Arguments checks {A} t.
Arguments clock_calls {A} t.
Arguments bytes_forwarded {A} t.

(** The loop [while (available() && bytes_forwarded < BUFFER_SIZE)] of both
    forwarding functions; [room] is [BUFFER_SIZE - bytes_forwarded].  Each
    test calls [available()], which sees what has arrived; each turn reads
    one byte, writes it to the other side and stamps the activity with
    [millis()]. *)
Fixpoint forward_loop {A : Type} (put : byte -> A) (arrival : nat -> list byte)
         (millis : nat -> Z) (room : nat) (t : Transfer A) : Transfer A :=
  match source t ++ arrival (checks t), room with
  | b :: rest, S room' =>
      forward_loop put arrival millis room'
        {| source := rest;
           sink := sink t ++ [put b];
           stamp := millis (clock_calls t);
           checks := S (checks t);
           clock_calls := S (clock_calls t);
           bytes_forwarded := bytes_forwarded t + 1 |}
  | pending, _ =>
      {| source := pending;
         sink := sink t;
         stamp := stamp t;
         checks := S (checks t);
         clock_calls := clock_calls t;
         bytes_forwarded := bytes_forwarded t |}
  end.

Definition forwardUSBToVESC (w : Wire) (s : State) : State * Z :=
  let t := forward_loop (fun b => b) (usb_arrival w) (millis_answer w)
             (Z.to_nat BUFFER_SIZE)
             {| source := usb_rx s; sink := vesc_tx s;
                stamp := last_usb_activity s; checks := usb_checks s;
                clock_calls := millis_calls s; bytes_forwarded := 0 |} in
  ({| usb_rx := source t;
      usb_tx := usb_tx s;
      vesc_rx := vesc_rx s;
      vesc_tx := sink t;
      last_usb_activity := stamp t;
      last_vesc_activity := last_vesc_activity s;
      last_led_update := last_led_update s;
      led_state := led_state s;
      bytes_forwarded_usb_to_vesc :=
        if bytes_forwarded t >? 0
        then wrap_ulong (bytes_forwarded_usb_to_vesc s + bytes_forwarded t)
        else bytes_forwarded_usb_to_vesc s;
      bytes_forwarded_vesc_to_usb := bytes_forwarded_vesc_to_usb s;
      last_stats := last_stats s;
      led_pin := led_pin s;
      millis_calls := clock_calls t;
      usb_checks := checks t;
      vesc_checks := vesc_checks s |},
   bytes_forwarded t).

Definition forwardVESCToUSB (w : Wire) (s : State) : State * Z :=
  let t := forward_loop Forwarded (vesc_arrival w) (millis_answer w)
             (Z.to_nat BUFFER_SIZE)
             {| source := vesc_rx s; sink := usb_tx s;
                stamp := last_vesc_activity s; checks := vesc_checks s;
                clock_calls := millis_calls s; bytes_forwarded := 0 |} in
  ({| usb_rx := usb_rx s;
      usb_tx := sink t;
      vesc_rx := source t;
      vesc_tx := vesc_tx s;
      last_usb_activity := last_usb_activity s;
      last_vesc_activity := stamp t;
      last_led_update := last_led_update s;
      led_state := led_state s;
      bytes_forwarded_usb_to_vesc := bytes_forwarded_usb_to_vesc s;
      bytes_forwarded_vesc_to_usb :=
        if bytes_forwarded t >? 0
        then wrap_ulong (bytes_forwarded_vesc_to_usb s + bytes_forwarded t)
        else bytes_forwarded_vesc_to_usb s;
      last_stats := last_stats s;
      led_pin := led_pin s;
      millis_calls := clock_calls t;
      usb_checks := usb_checks s;
      vesc_checks := checks t |},
   bytes_forwarded t).

Definition updateBridgeStatusLED (w : Wire) (s : State) : State :=
  let now := millis_answer w (millis_calls s) in
  let has_recent_activity :=
    (wrap_ulong (now - last_usb_activity s) <? BRIDGE_ACTIVITY_TIMEOUT)
    || (wrap_ulong (now - last_vesc_activity s) <? BRIDGE_ACTIVITY_TIMEOUT) in
  let blink_interval := if has_recent_activity then 100 else 500 in
  let due := wrap_ulong (now - last_led_update s) >=? blink_interval in
  {| usb_rx := usb_rx s;
     usb_tx := usb_tx s;
     vesc_rx := vesc_rx s;
     vesc_tx := vesc_tx s;
     last_usb_activity := last_usb_activity s;
     last_vesc_activity := last_vesc_activity s;
     last_led_update := if due then now else last_led_update s;
     led_state := if due then negb (led_state s) else led_state s;
     bytes_forwarded_usb_to_vesc := bytes_forwarded_usb_to_vesc s;
     bytes_forwarded_vesc_to_usb := bytes_forwarded_vesc_to_usb s;
     last_stats := last_stats s;
     led_pin := if due then led_pin s ++ [negb (led_state s)] else led_pin s;
     millis_calls := S (millis_calls s);
     usb_checks := usb_checks s;
     vesc_checks := vesc_checks s |}.

Definition printBridgeStats (w : Wire) (s : State) : State :=
  let now := millis_answer w (millis_calls s) in
  let has_recent_activity :=
    (wrap_ulong (now - last_usb_activity s) <? 5000)
    || (wrap_ulong (now - last_vesc_activity s) <? 5000) in
  let stats_interval := if has_recent_activity then 5000 else 30000 in
  let due := wrap_ulong (now - last_stats s) >=? stats_interval in
  {| usb_rx := usb_rx s;
     usb_tx :=
       if due then
         usb_tx s ++ [ Statistics (now / 1000)
                         (bytes_forwarded_usb_to_vesc s)
                         (bytes_forwarded_vesc_to_usb s)
                         (wrap_ulong (now - last_usb_activity s))
                         (wrap_ulong (now - last_vesc_activity s))
                         has_recent_activity ]
       else usb_tx s;
     vesc_rx := vesc_rx s;
     vesc_tx := vesc_tx s;
     last_usb_activity := last_usb_activity s;
     last_vesc_activity := last_vesc_activity s;
     last_led_update := last_led_update s;
     led_state := led_state s;
     bytes_forwarded_usb_to_vesc := bytes_forwarded_usb_to_vesc s;
     bytes_forwarded_vesc_to_usb := bytes_forwarded_vesc_to_usb s;
     last_stats := if due then now else last_stats s;
     led_pin := led_pin s;
     millis_calls := S (millis_calls s);
     usb_checks := usb_checks s;
     vesc_checks := vesc_checks s |}.

Definition runVescBridge (w : Wire) (s : State) : State :=
  let (s1, usb_bytes) := forwardUSBToVESC w s in
  let (s2, vesc_bytes) := forwardVESCToUSB w s1 in
  let s3 := updateBridgeStatusLED w s2 in
  printBridgeStats w s3.

(** The loop of the firmware in bridge mode: [runVescBridge] over and over. *)
Definition bridge_cycles (w : Wire) (n : nat) (s : State) : State :=
  Nat.iter n (runVescBridge w) s.

(** The bytes among what was written to [Serial]. *)
Fixpoint forwarded_bytes (out : list UsbOutput) : list byte :=
  match out with
  | [] => []
  | Forwarded b :: rest => b :: forwarded_bytes rest
  | Statistics _ _ _ _ _ _ :: rest => forwarded_bytes rest
  end.

(** The bytes that arrived during the [n] calls of [available()] from call
    [k] on, in order. *)
Definition arrived (arrival : nat -> list byte) (k n : nat) : list byte :=
  List.concat (map arrival (seq k n)).

(** The bridge as [initVescBridge] leaves it: the static variables at
    their initial values, the receive buffers emptied, nothing forwarded
    yet. *)
Definition ready : State :=
  {| usb_rx := []; usb_tx := []; vesc_rx := []; vesc_tx := [];
     last_usb_activity := 0; last_vesc_activity := 0; last_led_update := 0;
     led_state := false;
     bytes_forwarded_usb_to_vesc := 0; bytes_forwarded_vesc_to_usb := 0;
     last_stats := 0; led_pin := [];
     millis_calls := 0; usb_checks := 0; vesc_checks := 0 |}.

(** The same with bytes waiting on either side. *)
Definition ready_with (usb vesc : list byte) : State :=
  {| usb_rx := usb; usb_tx := []; vesc_rx := vesc; vesc_tx := [];
     last_usb_activity := 0; last_vesc_activity := 0; last_led_update := 0;
     led_state := false;
     bytes_forwarded_usb_to_vesc := 0; bytes_forwarded_vesc_to_usb := 0;
     last_stats := 0; led_pin := [];
     millis_calls := 0; usb_checks := 0; vesc_checks := 0 |}.

(** A wire whose clock shows [now] throughout and on which the given
    chunks come in at the first calls of [available()], and nothing
    after. *)
Definition wire_at (now : Z) (usb vesc : list (list byte)) : Wire :=
  {| millis_answer := fun _ => now;
     usb_arrival := fun k => nth k usb [];
     vesc_arrival := fun k => nth k vesc [] |}.

(** A wire on which nothing ever comes in. *)
Definition quiet_wire (now : Z) : Wire :=
  {| millis_answer := fun _ => now;
     usb_arrival := fun _ => [];
     vesc_arrival := fun _ => [] |}.

End Bridge.

(** ** Commands over BLE ([EBikeCommandCallbacks::onWrite]) *)

(** The calls the command handler makes, in order, with the text they are
    given: a fixed text followed by the command where there is one. *)
Inductive CommandCall : Type :=
| Command_Serial_println (prefix : string) (command : list byte)
| Call_updateBLETelemetryData
| Call_sendBLEModeList
| Command_changeAssistMode (new_mode : Z)
| Command_addLogMessage (text : string) (command : list byte).

(** [value.c_str()] read as a C string: the bytes before the first NUL. *)
Fixpoint c_str (value : list byte) : list byte :=
  match value with
  | [] => []
  | b :: rest => if Byte.eqb b "000"%byte then [] else b :: c_str rest
  end.

(** [==] of two strings. *)
Fixpoint bytes_eqb (a b : list byte) : bool :=
  match a, b with
  | [], [] => true
  | x :: a', y :: b' => Byte.eqb x y && bytes_eqb a' b'
  | _, _ => false
  end.

Definition GET_STATUS : list byte := list_byte_of_string "GET_STATUS".
Definition GET_MODES : list byte := list_byte_of_string "GET_MODES".
Definition EMERGENCY_STOP : list byte := list_byte_of_string "EMERGENCY_STOP".
Definition No_Assist : list byte := list_byte_of_string "No Assist".

Section Command.

Variable NUM_ACTIVE_PROFILES : Z.
(** [AVAILABLE_PROFILES[i].name]; the table is defined in a file not covered
    here. *)
Variable profile_name : Z -> list byte.

(** The loop [for (int i = 0; i < NUM_ACTIVE_PROFILES; i++)] of the
    emergency stop from index [i] on, with [turns] turns left. *)
Fixpoint emergency_stop_loop (turns : nat) (i : Z) : list CommandCall :=
  match turns with
  | O => []
  | S turns' =>
      if bytes_eqb (profile_name i) No_Assist then
        [ Command_changeAssistMode i;
          Command_addLogMessage "BLE Emergency stop activated"%string [] ]
      else emergency_stop_loop turns' (i + 1)
  end.

(** [value] is the payload [pCharacteristic->getValue()]. *)
Definition Command_onWrite (value : list byte) : list CommandCall :=
  match value with
  | [] => []
  | _ :: _ =>
      let command := c_str value in
      Command_Serial_println "BLE: Command received: "%string command ::
      if bytes_eqb command GET_STATUS then
        [ Call_updateBLETelemetryData;
          Command_addLogMessage "BLE Status requested"%string [] ]
      else if bytes_eqb command GET_MODES then
        [ Call_sendBLEModeList;
          Command_addLogMessage "BLE Mode list requested"%string [] ]
      else if bytes_eqb command EMERGENCY_STOP then
        emergency_stop_loop (Z.to_nat NUM_ACTIVE_PROFILES) 0
      else
        [ Command_addLogMessage "BLE Unknown command: "%string command ]
  end.

End Command.

(** A profile table with [No Assist] at index 1 and one without it. *)
Definition profiles_with_no_assist (i : Z) : list byte :=
  if i =? 1 then No_Assist else list_byte_of_string "Eco".
Definition profiles_without_no_assist (i : Z) : list byte :=
  list_byte_of_string "Eco".

(** Hardware whose clock advances by [tick] ms from one call of [millis()]
    to the next and whose ADC answers [reading] throughout. *)
Definition hardware_ticking (tick reading : Z) : Hardware :=
  {| millis_at := fun k => tick * Z.of_nat k;
     analogRead_at := fun _ => reading |}.

(** ** The current characteristic of [updateBLETelemetryData] *)

(** The four bytes [current_data] made of the two [uint16_t] values. *)
Definition current_data (motor_current battery_current : Z) : list Z :=
  [ Z.land motor_current 255;
    Z.land (Z.shiftr motor_current 8) 255;
    Z.land battery_current 255;
    Z.land (Z.shiftr battery_current 8) 255 ].

(** * Properties *)

(** ** Machine integers *)

Lemma wrap_int_small (z : Z) : in_int z -> wrap_int z = z.
Proof.
  unfold in_int, INT_MIN, INT_MAX, wrap_int. intros H.
  rewrite Z.mod_small; lia.
Qed.

Lemma int_abs_small (z : Z) : INT_MIN < z <= INT_MAX -> int_abs z = Z.abs z.
Proof.
  unfold int_abs, INT_MIN, INT_MAX. intros H.
  apply wrap_int_small. unfold in_int, INT_MIN, INT_MAX. lia.
Qed.

Lemma wrap_int_in_int (z : Z) : in_int (wrap_int z).
Proof.
  unfold in_int, wrap_int, INT_MIN, INT_MAX.
  pose proof (Z.mod_pos_bound (z + 2147483648) 4294967296 ltac:(lia)). lia.
Qed.

(** ** Calibration *)

Lemma reading_in_range_bounds (r : Z) :
  reading_in_range r = true <-> 100 <= r <= 3995.
Proof. unfold reading_in_range. rewrite andb_true_iff, !Z.leb_le. tauto. Qed.

Lemma sum_of_cons (r : Z) (l : list Z) : sum_of (r :: l) = r + sum_of l.
Proof. reflexivity. Qed.

Lemma accepted_sum_bounds (l : list Z) :
  100 * Z.of_nat (List.length (filter reading_in_range l))
    <= sum_of (filter reading_in_range l)
    <= 3995 * Z.of_nat (List.length (filter reading_in_range l)).
Proof.
  induction l as [|r l IH]; cbn [filter]; [cbn; lia|].
  destruct (reading_in_range r) eqn:E; [|exact IH].
  apply reading_in_range_bounds in E.
  rewrite sum_of_cons. cbn [List.length]. lia.
Qed.

Section CalibrationProperties.

Variable TORQUE_CALIBRATION_SAMPLES : Z.
Variable TORQUE_CALIBRATION_TIMEOUT_MS : Z.
Variable TORQUE_STANDSTILL_DEFAULT : Z.

Local Abbreviation N := TORQUE_CALIBRATION_SAMPLES.
Local Abbreviation loop := (sampling_loop TORQUE_CALIBRATION_TIMEOUT_MS).
Local Abbreviation taken := (samples_taken TORQUE_CALIBRATION_TIMEOUT_MS).
Local Abbreviation accepted := (accepted_samples N TORQUE_CALIBRATION_TIMEOUT_MS).
Local Abbreviation count := (accepted_count N TORQUE_CALIBRATION_TIMEOUT_MS).
Local Abbreviation calibrate :=
  (calibrate_torque_sensor N TORQUE_CALIBRATION_TIMEOUT_MS TORQUE_STANDSTILL_DEFAULT).

Lemma samples_taken_length hw start i remaining :
  (List.length (taken hw start i remaining) <= remaining)%nat.
Proof.
  revert i. induction remaining as [|k IH]; intros i; simpl; [lia|].
  destruct (_ >? _); simpl; [lia|]. specialize (IH (S i)). lia.
Qed.

Lemma accepted_length_le hw start i remaining :
  (List.length (filter reading_in_range (taken hw start i remaining)) <= remaining)%nat.
Proof.
  etransitivity; [apply filter_length_le | apply samples_taken_length].
Qed.

(** [valid_samples] counts the accepted samples as long as the counter
    cannot overflow. *)
Lemma sampling_loop_valid hw start remaining : forall i acc,
  0 <= valid_samples acc ->
  valid_samples acc + Z.of_nat remaining <= INT_MAX ->
  valid_samples (loop hw start i remaining acc)
  = valid_samples acc
    + Z.of_nat (List.length (filter reading_in_range (taken hw start i remaining))).
Proof.
  induction remaining as [|k IH]; intros i acc Hlo Hhi; simpl; [lia|].
  destruct (_ >? _); simpl; [lia|].
  destruct (reading_in_range (analogRead_at hw i)) eqn:E.
  - rewrite IH; cbn [valid_samples];
      rewrite ?wrap_int_small by (unfold in_int, INT_MIN, INT_MAX in *; lia);
      cbn [List.length]; lia.
  - apply IH; lia.
Qed.

(** [total_readings] is their sum as long as the sum fits a [long]. *)
Lemma sampling_loop_total hw start remaining : forall i acc,
  0 <= total_readings acc ->
  total_readings acc + 3995 * Z.of_nat remaining <= LONG_MAX ->
  total_readings (loop hw start i remaining acc)
  = total_readings acc
    + sum_of (filter reading_in_range (taken hw start i remaining)).
Proof.
  induction remaining as [|k IH]; intros i acc Hlo Hhi; simpl; [lia|].
  destruct (_ >? _); simpl; [lia|].
  destruct (reading_in_range (analogRead_at hw i)) eqn:E.
  - apply reading_in_range_bounds in E.
    assert (W : wrap_long (total_readings acc + analogRead_at hw i)
                = total_readings acc + analogRead_at hw i).
    { apply wrap_int_small. unfold in_int, INT_MIN, INT_MAX, LONG_MAX in *. lia. }
    rewrite IH; cbn [total_readings]; rewrite W.
    + rewrite sum_of_cons. lia.
    + lia.
    + unfold LONG_MAX in *. lia.
  - apply IH; lia.
Qed.

Lemma loop_counts hw :
  N <= INT_MAX ->
  valid_samples (loop hw (millis_at hw 0) 0%nat (Z.to_nat N)
                   {| total_readings := 0; valid_samples := 0 |})
  = count hw.
Proof.
  intros HN. rewrite sampling_loop_valid; cbn [valid_samples];
    [reflexivity | lia | unfold INT_MAX in *; lia].
Qed.

Lemma loop_sums hw :
  3995 * N <= LONG_MAX ->
  total_readings (loop hw (millis_at hw 0) 0%nat (Z.to_nat N)
                    {| total_readings := 0; valid_samples := 0 |})
  = sum_of (accepted hw).
Proof.
  intros HN. rewrite sampling_loop_total; cbn [total_readings];
    [reflexivity | lia | unfold LONG_MAX in *; lia].
Qed.

Lemma count_le_samples hw : count hw <= Z.max 0 N.
Proof.
  unfold accepted_count, accepted_samples.
  pose proof (accepted_length_le hw (millis_at hw 0) 0%nat (Z.to_nat N)). lia.
Qed.

(** The successful branch, whatever made the code take it. *)
Lemma calibrate_success hw :
  3995 * N <= LONG_MAX ->
  Z.quot N 2 <= count hw ->
  0 < count hw ->
  calibrate false hw
  = Returns (run_ending (sum_of (accepted hw) / count hw) Printed_completed)
  /\ 100 <= sum_of (accepted hw) / count hw <= 3995.
Proof.
  intros Hfit Hhalf Hpos.
  assert (HN : N <= INT_MAX) by (unfold LONG_MAX, INT_MAX in *; lia).
  pose proof (accepted_sum_bounds
                (taken hw (millis_at hw 0) 0%nat (Z.to_nat N))) as Hb.
  fold (accepted hw) in Hb. fold (count hw) in Hb.
  assert (Hq : 100 <= sum_of (accepted hw) / count hw <= 3995).
  { split.
    - apply Z.div_le_lower_bound; lia.
    - apply Z.div_le_upper_bound; lia. }
  split; [|exact Hq].
  unfold calibrate_torque_sensor, run_ending. cbv zeta.
  rewrite (loop_counts hw HN), (loop_sums hw Hfit).
  destruct (Z.leb_spec (Z.quot N 2) (count hw)); [|lia].
  destruct (Z.eqb_spec (count hw) 0); [lia|].
  rewrite Z.quot_div_nonneg by lia.
  rewrite wrap_int_small by (unfold in_int, INT_MIN, INT_MAX; lia).
  reflexivity.
Qed.

(** C1, as amended: when at least half of the [N] samples are accepted
    into [100, 3995], the run ends with [torque_calibration_complete] set
    and the baseline equal to the sum of the accepted samples divided by
    their number, the quotient being rounded down (integer division), not
    to the nearest integer; the accepted samples
    [2000, 2010, 2005, 2020, 1995] give 2006. *)
Theorem calibration_success_truncated_mean hw :
  0 < N ->
  3995 * N <= LONG_MAX ->
  N <= 2 * count hw ->
  calibrate false hw
  = Returns (run_ending (sum_of (accepted hw) / count hw) Printed_completed)
  /\ (accepted hw = [2000; 2010; 2005; 2020; 1995] ->
      calibrate false hw = Returns (run_ending 2006 Printed_completed)).
Proof.
  intros Hpos Hfit Hhalf.
  assert (Hq : Z.quot N 2 <= count hw).
  { rewrite Z.quot_div_nonneg by lia.
    apply Z.div_le_upper_bound; lia. }
  destruct (calibrate_success hw Hfit Hq ltac:(lia)) as [E _].
  split; [exact E|].
  intros Hl. rewrite E. unfold accepted_count. rewrite Hl. reflexivity.
Qed.

(** C2, as amended: when fewer than [N / 2] samples (integer division) are
    accepted, none included, the run ends with the baseline equal to
    [TORQUE_STANDSTILL_DEFAULT] and with [torque_calibration_complete]
    set: the globals are those the skipped calibration of debug mode
    leaves and keep no status apart from that flag; the failure is only
    printed on the serial line. *)
Theorem calibration_fallback_default hw :
  N <= INT_MAX ->
  count hw < Z.quot N 2 ->
  calibrate false hw
  = Returns (run_ending TORQUE_STANDSTILL_DEFAULT Printed_failed)
  /\ calibrate true hw
     = Returns (run_ending TORQUE_STANDSTILL_DEFAULT Printed_skipped).
Proof.
  intros HN Hfew. split; [|reflexivity].
  unfold calibrate_torque_sensor, run_ending. cbv zeta.
  rewrite (loop_counts hw HN).
  destruct (Z.leb_spec (Z.quot N 2) (count hw)); [lia|reflexivity].
Qed.

(** C9: a run that takes the successful branch with at least one accepted
    sample returns a baseline within [100, 3995]. *)
Theorem calibrated_baseline_in_range hw :
  3995 * N <= LONG_MAX ->
  Z.quot N 2 <= count hw ->
  0 < count hw ->
  exists r, calibrate false hw = Returns r
            /\ serial_verdict r = Printed_completed
            /\ torque_calibration_complete (globals_after r) = true
            /\ 100 <= torque_standstill_calibrated (globals_after r) <= 3995.
Proof.
  intros Hfit Hhalf Hpos.
  destruct (calibrate_success hw Hfit Hhalf Hpos) as [E Hr].
  eexists. split; [exact E|]. repeat split; apply Hr.
Qed.

End CalibrationProperties.

(** C1, as stated, fails: with [N = 5] and the accepted samples
    [2000, 2010, 2005, 2020, 1998], whose mean is 2006.6, the baseline is
    2006, which is not that mean rounded. *)
Lemma calibration_rounding_counterexample :
  5 <= 2 * accepted_count 5 1000 (hardware_reading [2000; 2010; 2005; 2020; 1998])
  /\ accepted_samples 5 1000 (hardware_reading [2000; 2010; 2005; 2020; 1998])
     = [2000; 2010; 2005; 2020; 1998]
  /\ calibrate_torque_sensor 5 1000 2048 false
       (hardware_reading [2000; 2010; 2005; 2020; 1998])
     = Returns (run_ending 2006 Printed_completed)
  /\ ~ is_rounded_mean 2006
         (accepted_samples 5 1000 (hardware_reading [2000; 2010; 2005; 2020; 1998])).
Proof.
  repeat split; try reflexivity.
  - vm_compute. discriminate.
  - vm_compute. intros H. apply H. reflexivity.
Qed.

Lemma calibration_success_witness :
  (0 < 5 /\ 3995 * 5 <= LONG_MAX
   /\ 5 <= 2 * accepted_count 5 1000 (hardware_reading [2000; 2010; 2005; 2020; 1995]))
  /\ calibrate_torque_sensor 5 1000 2048 false
       (hardware_reading [2000; 2010; 2005; 2020; 1995])
     = Returns (run_ending 2006 Printed_completed).
Proof.
  assert (H1 : 0 < 5) by reflexivity.
  assert (H2 : 3995 * 5 <= LONG_MAX) by (vm_compute; discriminate).
  assert (H3 : 5 <= 2 * accepted_count 5 1000
                        (hardware_reading [2000; 2010; 2005; 2020; 1995]))
    by (vm_compute; discriminate).
  split; [auto|].
  exact (proj2 (calibration_success_truncated_mean 5 1000 2048 _ H1 H2 H3) eq_refl).
Defined.

(** C2, as stated, fails: a run without a single accepted sample and a run
    whose four samples are all accepted leave the very same globals (only
    the serial verdicts differ), so that no status read from the globals
    tells a failed calibration from a complete one. *)
Lemma calibration_status_counterexample :
  accepted_samples 4 1000 (hardware_reading [0; 0; 0; 0]) = []
  /\ calibrate_torque_sensor 4 1000 2048 false (hardware_reading [0; 0; 0; 0])
     = Returns (run_ending 2048 Printed_failed)
  /\ accepted_samples 4 1000 (hardware_reading [2048; 2048; 2048; 2048])
     = [2048; 2048; 2048; 2048]
  /\ calibrate_torque_sensor 4 1000 2048 false (hardware_reading [2048; 2048; 2048; 2048])
     = Returns (run_ending 2048 Printed_completed)
  /\ globals_after (run_ending 2048 Printed_failed)
     = globals_after (run_ending 2048 Printed_completed)
  /\ ~ (exists status : CalibrationState -> CalibrationStatus,
          status (globals_after (run_ending 2048 Printed_completed)) = Complete
          /\ status (globals_after (run_ending 2048 Printed_failed))
             = FailedUsingDefault).
Proof.
  repeat split; try reflexivity.
  intros [status [Hok Hfail]].
  change (globals_after (run_ending 2048 Printed_failed))
    with (globals_after (run_ending 2048 Printed_completed)) in Hfail.
  rewrite Hok in Hfail. discriminate.
Qed.

Lemma calibration_fallback_witness :
  (4 <= INT_MAX
   /\ accepted_count 4 1000 (hardware_reading [0; 0; 0; 0]) < Z.quot 4 2)
  /\ calibrate_torque_sensor 4 1000 2048 false (hardware_reading [0; 0; 0; 0])
     = Returns (run_ending 2048 Printed_failed).
Proof.
  assert (H1 : 4 <= INT_MAX) by (vm_compute; discriminate).
  assert (H2 : accepted_count 4 1000 (hardware_reading [0; 0; 0; 0]) < Z.quot 4 2)
    by reflexivity.
  split; [auto|].
  exact (proj1 (calibration_fallback_default 4 1000 2048 _ H1 H2)).
Defined.

(** With an odd sample count the code's test [valid_samples >= N / 2] lets
    a run through in which fewer than half of the samples are accepted:
    two of five here. *)
Lemma calibration_odd_count_boundary :
  2 * accepted_count 5 1000 (hardware_reading [2000; 2010; 0; 0; 0]) < 5
  /\ calibrate_torque_sensor 5 1000 2048 false (hardware_reading [2000; 2010; 0; 0; 0])
     = Returns (run_ending 2005 Printed_completed).
Proof. split; reflexivity. Qed.

(** With a sample count of 1 (or less) the successful branch is taken
    without any accepted sample, and divides by zero. *)
Lemma calibration_single_sample_division :
  calibrate_torque_sensor 1 1000 2048 false (hardware_reading [0]) = Undefined.
Proof. reflexivity. Qed.

(** A clock that jumps past the time-out ends the sampling at once: no
    sample is taken and the run falls back to the default. *)
Lemma calibration_timeout_falls_back :
  calibrate_torque_sensor 4 1000 2048 false
    {| millis_at := fun k => match k with O => 0 | _ => 1001 end;
       analogRead_at := fun _ => 2000 |}
  = Returns (run_ending 2048 Printed_failed).
Proof. reflexivity. Qed.

Lemma calibrated_baseline_witness :
  (3995 * 5 <= LONG_MAX
   /\ Z.quot 5 2 <= accepted_count 5 1000 (hardware_reading [2000; 2010; 0; 0; 0])
   /\ 0 < accepted_count 5 1000 (hardware_reading [2000; 2010; 0; 0; 0]))
  /\ exists r,
       calibrate_torque_sensor 5 1000 2048 false (hardware_reading [2000; 2010; 0; 0; 0])
       = Returns r
       /\ serial_verdict r = Printed_completed
       /\ torque_calibration_complete (globals_after r) = true
       /\ 100 <= torque_standstill_calibrated (globals_after r) <= 3995.
Proof.
  assert (H1 : 3995 * 5 <= LONG_MAX) by (vm_compute; discriminate).
  assert (H2 : Z.quot 5 2 <= accepted_count 5 1000
                                (hardware_reading [2000; 2010; 0; 0; 0]))
    by (vm_compute; discriminate).
  assert (H3 : 0 < accepted_count 5 1000 (hardware_reading [2000; 2010; 0; 0; 0]))
    by reflexivity.
  split; [auto|].
  exact (calibrated_baseline_in_range 5 1000 2048 _ H1 H2 H3).
Defined.

(** ** Single-precision arithmetic *)

Module Float32Facts.
Import Float32.

Lemma digits2_pos_size p : digits2_pos p = Pos.size p.
Proof. induction p; simpl; congruence. Qed.

Lemma Zdigits2_log2 p : Zdigits2 (Zpos p) = Z.log2 (Zpos p) + 1.
Proof.
  destruct p; cbn [Zdigits2 digits2_pos Z.log2]; rewrite ?digits2_pos_size; lia.
Qed.

Lemma shr_1_m mrs : 0 <= shr_m mrs -> shr_m (shr_1 mrs) = Z.div2 (shr_m mrs).
Proof.
  destruct mrs as [m r s]. cbn [shr_m]. intros H.
  destruct m as [|[p|p|]|p]; try reflexivity; lia.
Qed.

Lemma iter_shr_1_m n : forall mrs,
  0 <= shr_m mrs -> shr_m (iter_pos shr_1 n mrs) = Z.shiftr (shr_m mrs) (Zpos n).
Proof.
  assert (S1 : forall mrs, 0 <= shr_m mrs -> 0 <= shr_m (shr_1 mrs)).
  { intros mrs H. rewrite shr_1_m by exact H. rewrite Z.div2_div. apply Z.div_pos; lia. }
  assert (SN : forall n mrs, 0 <= shr_m mrs ->
            shr_m (iter_pos shr_1 n mrs) = Z.shiftr (shr_m mrs) (Zpos n) ->
            0 <= shr_m (iter_pos shr_1 n mrs)).
  { intros k mrs H E. rewrite E. apply Z.shiftr_nonneg. exact H. }
  induction n as [n IH|n IH|]; intros mrs H; cbn [iter_pos].
  - pose proof (S1 mrs H) as H1.
    pose proof (SN n _ H1 (IH _ H1)) as H2.
    rewrite (IH _ H2), (IH _ H1), shr_1_m by exact H.
    rewrite Z.div2_spec, !Z.shiftr_shiftr by lia. f_equal. lia.
  - pose proof (SN n _ H (IH _ H)) as H2.
    rewrite (IH _ H2), (IH _ H).
    rewrite !Z.shiftr_shiftr by lia. f_equal. lia.
  - rewrite shr_1_m by auto. apply Z.div2_spec.
Qed.

Lemma shr_record_of_loc_m m l : shr_m (shr_record_of_loc m l) = m.
Proof. destruct l as [|[ | | ]]; reflexivity. Qed.

Lemma shr_spec mrs e n :
  0 <= shr_m mrs ->
  shr_m (fst (shr mrs e n)) = Z.shiftr (shr_m mrs) (Z.max 0 n)
  /\ snd (shr mrs e n) = e + Z.max 0 n.
Proof.
  intros H. destruct n as [|p|p]; cbn [shr fst snd].
  - rewrite Z.shiftr_0_r. lia.
  - rewrite iter_shr_1_m by exact H. split; [reflexivity | lia].
  - change (Z.max 0 (Z.neg p)) with 0. rewrite Z.shiftr_0_r. lia.
Qed.

Lemma shr_fexp_spec m e l :
  0 <= m ->
  shr_m (fst (shr_fexp prec emax m e l))
  = Z.shiftr m (Z.max 0 (fexp prec emax (Zdigits2 m + e) - e))
  /\ snd (shr_fexp prec emax m e l)
     = e + Z.max 0 (fexp prec emax (Zdigits2 m + e) - e).
Proof.
  intros H. unfold shr_fexp.
  pose proof (shr_spec (shr_record_of_loc m l) e
                (fexp prec emax (Zdigits2 m + e) - e)) as S.
  rewrite shr_record_of_loc_m in S. apply S. exact H.
Qed.

Lemma round_nearest_even_bounds m l :
  m <= round_nearest_even m l <= m + 1.
Proof.
  destruct l as [|[ | | ]]; cbn [round_nearest_even]; try lia.
  destruct (Z.even m); lia.
Qed.

Lemma binary_round_aux_signed sx mx ex lx :
  0 <= mx -> signed_as sx (binary_round_aux prec emax sx mx ex lx).
Proof.
  intros H. unfold binary_round_aux.
  pose proof (shr_fexp_spec mx ex lx H) as [E1 _].
  destruct (shr_fexp prec emax mx ex lx) as [mrs1 e1]. cbn [fst] in E1.
  assert (H1 : 0 <= shr_m mrs1) by (rewrite E1; apply Z.shiftr_nonneg; exact H).
  pose proof (round_nearest_even_bounds (shr_m mrs1) (loc_of_shr_record mrs1)) as Hr.
  set (m2 := round_nearest_even (shr_m mrs1) (loc_of_shr_record mrs1)) in *.
  assert (H2 : 0 <= m2) by lia.
  pose proof (shr_fexp_spec m2 e1 loc_Exact H2) as [E2 _].
  destruct (shr_fexp prec emax m2 e1 loc_Exact) as [mrs2 e2]. cbn [fst] in E2.
  assert (H3 : 0 <= shr_m mrs2) by (rewrite E2; apply Z.shiftr_nonneg; exact H2).
  unfold signed_as.
  destruct (shr_m mrs2) as [|p|p]; [auto | | lia].
  destruct (e2 <=? emax - prec); eauto.
Qed.

Lemma Zdigits2_pos m : 0 < m -> Zdigits2 m = Z.log2 m + 1.
Proof. destruct m as [|p|p]; try lia. intros _. apply Zdigits2_log2. Qed.

Lemma fexp_eq x : fexp prec emax x = Z.max (x - 24) (-149).
Proof. reflexivity. Qed.

Lemma shiftr_pos m k : 0 < m -> 0 <= k <= Z.log2 m ->
  0 < Z.shiftr m k /\ Z.log2 (Z.shiftr m k) = Z.log2 m - k.
Proof.
  intros Hm Hk.
  assert (N0 : Z.shiftr m k <> 0).
  { intros E. apply Z.shiftr_eq_0_iff in E. lia. }
  pose proof (Z.shiftr_nonneg m k) as [_ P]. specialize (P ltac:(lia)).
  split; [lia|]. rewrite Z.log2_shiftr by lia. lia.
Qed.

(** Rounding a number of the normal range that does not overflow gives a
    finite number with the sign it was given. *)
Lemma binary_round_aux_finite sx mx ex lx :
  0 < mx ->
  -149 <= Zdigits2 mx + ex - 24 ->
  ex <= 104 ->
  Zdigits2 mx + ex <= 127 ->
  exists m e, binary_round_aux prec emax sx mx ex lx = S754_finite sx m e.
Proof.
  intros Hm Hlo Hex Hhi. unfold binary_round_aux.
  pose proof (shr_fexp_spec mx ex lx ltac:(lia)) as [E1 F1].
  destruct (shr_fexp prec emax mx ex lx) as [mrs1 e1]. cbn [fst snd] in E1, F1.
  rewrite fexp_eq, (Zdigits2_pos mx Hm) in E1, F1.
  rewrite (Zdigits2_pos mx Hm) in Hlo, Hhi.
  pose proof (Z.log2_nonneg mx) as L0.
  set (k1 := Z.max 0 (Z.max (Z.log2 mx + 1 + ex - 24) (-149) - ex)) in *.
  destruct (shiftr_pos mx k1 Hm ltac:(lia)) as [P1 L1].
  rewrite <- E1 in P1, L1.
  pose proof (round_nearest_even_bounds (shr_m mrs1) (loc_of_shr_record mrs1)) as Hr.
  set (m2 := round_nearest_even (shr_m mrs1) (loc_of_shr_record mrs1)) in *.
  assert (P2 : 0 < m2) by lia.
  assert (L2 : Z.log2 (shr_m mrs1) <= Z.log2 m2 <= Z.log2 (shr_m mrs1) + 1).
  { split; [apply Z.log2_le_mono; lia|].
    transitivity (Z.log2 (Z.succ (shr_m mrs1))).
    - apply Z.log2_le_mono. lia.
    - apply Z.log2_succ_le. }
  pose proof (shr_fexp_spec m2 e1 loc_Exact ltac:(lia)) as [E2 F2].
  destruct (shr_fexp prec emax m2 e1 loc_Exact) as [mrs2 e2]. cbn [fst snd] in E2, F2.
  rewrite fexp_eq, (Zdigits2_pos m2 P2) in E2, F2.
  set (k2 := Z.max 0 (Z.max (Z.log2 m2 + 1 + e1 - 24) (-149) - e1)) in *.
  destruct (shiftr_pos m2 k2 P2 ltac:(lia)) as [P3 _].
  rewrite <- E2 in P3.
  destruct (shr_m mrs2) as [|p|p]; try lia.
  destruct (Z.leb_spec e2 (emax - prec)) as [_|Hover]; [eauto|].
  unfold emax, prec in Hover. lia.
Qed.

Lemma Zpos_iter_xO p k : Zpos (Pos.iter xO p k) = Z.shiftl (Zpos p) (Zpos k).
Proof.
  cbn [Z.shiftl].
  apply (Pos.iter_swap_gen _ _ Zpos xO (Z.mul 2)). reflexivity.
Qed.

Lemma binary_round_finite s p :
  Z.log2 (Zpos p) <= 100 ->
  exists m e, binary_round prec emax s p 0 = S754_finite s m e.
Proof.
  intros Hp. unfold binary_round, shl_align.
  change (Zpos (digits2_pos p)) with (Zdigits2 (Zpos p)).
  rewrite fexp_eq, Zdigits2_log2.
  pose proof (Z.log2_nonneg (Zpos p)) as L0.
  destruct (Z.max (Z.log2 (Zpos p) + 1 + 0 - 24) (-149) - 0) as [|k|k] eqn:E.
  - apply binary_round_aux_finite; rewrite ?Zdigits2_log2; lia.
  - apply binary_round_aux_finite; rewrite ?Zdigits2_log2; lia.
  - assert (D : Zdigits2 (Zpos (Pos.iter xO p k)) = Z.log2 (Zpos p) + Zpos k + 1).
    { rewrite Zdigits2_log2, Zpos_iter_xO, Z.log2_shiftl by lia. reflexivity. }
    apply binary_round_aux_finite; rewrite ?D; lia.
Qed.

(** An [int] other than 0 converts to a finite [float] of the same sign. *)
Lemma of_int_finite n :
  n <> 0 -> in_int n ->
  exists m e, of_int n = S754_finite (n <? 0) m e.
Proof.
  unfold in_int, INT_MIN, INT_MAX. intros Hn Hr.
  assert (L : Z.log2 (Z.abs n) <= 100).
  { transitivity (Z.log2 (2 ^ 31)); [apply Z.log2_le_mono; lia|].
    rewrite Z.log2_pow2; lia. }
  destruct n as [|p|p]; [lia| |]; apply binary_round_finite; exact L.
Qed.

Lemma of_int_zero : of_int 0 = zero.
Proof. reflexivity. Qed.

(** [x / x] is exactly [1.0] for a finite [x]. *)
Lemma div_self s m e :
  div (S754_finite s m e) (S754_finite s m e) = one.
Proof.
  unfold div, SFdiv, SFdiv_core_binary.
  replace (Zdigits2 (Zpos m) + e - (Zdigits2 (Zpos m) + e)) with 0 by lia.
  replace (e - e) with 0 by lia.
  change (Z.min (fexp prec emax 0) 0) with (-24).
  change (0 - -24) with 24. cbv iota beta.
  rewrite Z.shiftl_mul_pow2 by lia.
  change (2 ^ 24) with 16777216.
  assert (Hq : Zpos m * 16777216 / Zpos m = 16777216)
    by (rewrite Z.mul_comm; apply Z.div_mul; lia).
  assert (Hr : (Zpos m * 16777216) mod Zpos m = 0)
    by (rewrite Z.mul_comm; apply Z.mod_mul; lia).
  unfold Z.div, Z.modulo in Hq, Hr.
  destruct (Z.div_eucl (Zpos m * 16777216) (Zpos m)) as [q r].
  cbn [fst snd] in Hq, Hr. subst q r.
  replace (new_location (Zpos m) 0) with loc_Exact
    by (unfold new_location; destruct (Z.even (Zpos m)); reflexivity).
  rewrite xorb_nilpotent. reflexivity.
Qed.

(** [1.0 * x] is [x] for a finite [x] in canonical form. *)
Lemma mul_one_l s m e :
  valid_binary prec emax (S754_finite s m e) = true ->
  mul one (S754_finite s m e) = S754_finite s m e.
Proof.
  cbn [valid_binary]. unfold bounded, canonical_mantissa.
  rewrite andb_true_iff, Z.eqb_eq, Z.leb_le. intros [Hc He].
  unfold mul, SFmul, one. cbn [xorb Pos.mul].
  unfold binary_round_aux, shr_fexp.
  assert (D : forall q, Zpos (Pos.succ q) = Zpos q + 1) by (intros; lia).
  cbn [Zdigits2 digits2_pos]. rewrite !D.
  replace (Zpos (digits2_pos m) + 1 + 1 + 1 + 1 + 1 + 1 + 1 + 1 + 1 + 1 + 1 + 1
           + 1 + 1 + 1 + 1 + 1 + 1 + 1 + 1 + 1 + 1 + 1 + (-23 + e))
    with (Zpos (digits2_pos m) + e) by lia.
  rewrite Hc.
  replace (e - (-23 + e)) with 23 by lia.
  cbv [shr iter_pos shr_1 shr_record_of_loc orb shr_m loc_of_shr_record
       round_nearest_even shr_r shr_s].
  cbn [Zdigits2].
  replace (-23 + e + 23) with e by lia.
  rewrite Hc, Z.sub_diag.
  destruct (Z.leb_spec e (emax - prec)); [reflexivity|lia].
Qed.

Lemma compare_finite_refl s m e :
  SFcompare (S754_finite s m e) (S754_finite s m e) = Some Eq.
Proof.
  destruct s; cbn [SFcompare]; rewrite Z.compare_refl, Pos.compare_cont_refl;
    reflexivity.
Qed.

Lemma compare_positive_antisym m1 e1 m2 e2 :
  SFcompare (S754_finite false m2 e2) (S754_finite false m1 e1)
  = option_map CompOpp
      (SFcompare (S754_finite false m1 e1) (S754_finite false m2 e2)).
Proof.
  cbn [SFcompare option_map]. rewrite (Z.compare_antisym e1 e2).
  destruct (e1 ?= e2); cbn [CompOpp]; try reflexivity.
  rewrite Pos.compare_cont_antisym. reflexivity.
Qed.

Lemma div_signed s1 m1 e1 s2 m2 e2 :
  signed_as (xorb s1 s2) (div (S754_finite s1 m1 e1) (S754_finite s2 m2 e2)).
Proof.
  unfold div, SFdiv, SFdiv_core_binary.
  set (sh := _ - _ - Z.min _ _).
  set (m' := match sh with Z0 => Zpos m1 | Zpos _ => Z.shiftl (Zpos m1) sh | Zneg _ => 0 end).
  assert (Hm : 0 <= m').
  { subst m'. destruct sh; try lia. apply Z.shiftl_nonneg. lia. }
  pose proof (Z.div_pos m' (Zpos m2) Hm ltac:(lia)) as Hq.
  unfold Z.div in Hq. destruct (Z.div_eucl m' (Zpos m2)) as [q r].
  apply binary_round_aux_signed. exact Hq.
Qed.

Lemma mul_signed s x sy my ey :
  signed_as s x -> signed_as (xorb s sy) (mul x (S754_finite sy my ey)).
Proof.
  unfold signed_as at 1. intros [->|[->|[m [e ->]]]]; unfold mul, SFmul.
  - left. reflexivity.
  - right. left. reflexivity.
  - apply binary_round_aux_signed. lia.
Qed.
Lemma Zdigits2_nonneg m : 0 <= m -> Zdigits2 m = 0 /\ m = 0 \/ 0 < m /\ Zdigits2 m = Z.log2 m + 1.
Proof.
  intros H. destruct (Z.eq_dec m 0) as [->|N]; [left; split; reflexivity|].
  right. split; [lia|]. apply Zdigits2_pos. lia.
Qed.

Lemma shiftr_small m k : 0 <= m -> Z.log2 m < k -> Z.shiftr m k = 0.
Proof.
  intros Hm Hk. destruct (Z.eq_dec m 0) as [->|N].
  - apply Z.shiftr_0_l.
  - apply Z.shiftr_eq_0; lia.
Qed.

(** The exponent of the power of two just above a rounded number exceeds
    that of the number given by one at most (-148 for what is rounded up
    to the smallest positive number). *)
Lemma binary_round_aux_magnitude sx mx ex lx :
  0 <= mx ->
  ex <= 104 ->
  Zdigits2 mx + ex <= 126 ->
  binary_round_aux prec emax sx mx ex lx = S754_zero sx
  \/ exists m e,
       binary_round_aux prec emax sx mx ex lx = S754_finite sx m e
       /\ Zdigits2 (Zpos m) + e <= Z.max (Zdigits2 mx + ex + 1) (-148).
Proof.
  intros Hm Hex Hhi. unfold binary_round_aux.
  pose proof (shr_fexp_spec mx ex lx Hm) as [E1 F1].
  destruct (shr_fexp prec emax mx ex lx) as [mrs1 e1]. cbn [fst snd] in E1, F1.
  rewrite fexp_eq in E1, F1.
  set (d := Zdigits2 mx) in *.
  set (k1 := Z.max 0 (Z.max (d + ex - 24) (-149) - ex)) in *.
  assert (Hd0 : 0 <= d).
  { destruct (Zdigits2_nonneg mx Hm) as [[Hd _]|[Hp Hd]]; fold d in Hd;
      [lia | pose proof (Z.log2_nonneg mx); lia]. }
  assert (P1 : 0 <= shr_m mrs1) by (rewrite E1; apply Z.shiftr_nonneg; exact Hm).
  assert (D1 : shr_m mrs1 = 0 \/ 0 < shr_m mrs1 /\ Z.log2 (shr_m mrs1) + 1 = d - k1).
  { destruct (Zdigits2_nonneg mx Hm) as [[Hd ->]|[Hp Hd]].
    - left. rewrite E1. apply Z.shiftr_0_l.
    - fold d in Hd. destruct (Z_le_gt_dec k1 (Z.log2 mx)) as [Hk|Hk].
      + right. destruct (shiftr_pos mx k1 Hp ltac:(lia)) as [Q1 Q2].
        rewrite <- E1 in Q1, Q2. lia.
      + left. rewrite E1. apply shiftr_small; lia. }
  pose proof (round_nearest_even_bounds (shr_m mrs1) (loc_of_shr_record mrs1)) as Hr.
  set (m2 := round_nearest_even (shr_m mrs1) (loc_of_shr_record mrs1)) in *.
  pose proof (shr_fexp_spec m2 e1 loc_Exact ltac:(lia)) as [E2 F2].
  destruct (shr_fexp prec emax m2 e1 loc_Exact) as [mrs2 e2]. cbn [fst snd] in E2, F2.
  rewrite fexp_eq in E2, F2.
  destruct (Z.eq_dec m2 0) as [Z2|N2].
  { rewrite Z2, Z.shiftr_0_l in E2. rewrite E2. left. reflexivity. }
  assert (P2 : 0 < m2) by lia.
  rewrite (Zdigits2_pos m2 P2) in E2, F2.
  assert (L2 : Z.log2 m2 + 1 + e1 <= Z.max (d + ex + 1) (-148)).
  { destruct D1 as [Z1|[Q1 Q2]].
    - assert (H1 : m2 = 1) by lia. rewrite H1. change (Z.log2 1) with 0. lia.
    - assert (Z.log2 m2 <= Z.log2 (shr_m mrs1) + 1).
      { transitivity (Z.log2 (Z.succ (shr_m mrs1))).
        - apply Z.log2_le_mono. lia.
        - apply Z.log2_succ_le. }
      lia. }
  pose proof (Z.log2_nonneg m2) as L0.
  set (k2 := Z.max 0 (Z.max (Z.log2 m2 + 1 + e1 - 24) (-149) - e1)) in *.
  destruct (shiftr_pos m2 k2 P2 ltac:(lia)) as [P3 L3].
  rewrite <- E2 in P3, L3.
  destruct (shr_m mrs2) as [|p|p] eqn:E3; try lia.
  right.
  destruct (Z.leb_spec e2 (emax - prec)) as [_|Hover];
    [|unfold emax, prec in Hover; lia].
  exists p, e2. split; [reflexivity|].
  rewrite Zdigits2_log2. lia.
Qed.

Lemma div_core_magnitude m1 e1 m2 e2 :
  let '(q, e', _) := SFdiv_core_binary prec emax (Zpos m1) e1 (Zpos m2) e2 in
  0 <= q
  /\ e' <= Z.max (Zdigits2 (Zpos m1) + e1 - (Zdigits2 (Zpos m2) + e2) - 24) (-149)
  /\ Zdigits2 q + e' <= Z.max (Zdigits2 (Zpos m1) + e1 - (Zdigits2 (Zpos m2) + e2) + 1) e'.
Proof.
  unfold SFdiv_core_binary. rewrite fexp_eq.
  set (d1 := Zdigits2 (Zpos m1)). set (d2 := Zdigits2 (Zpos m2)).
  set (e' := Z.min (Z.max (d1 + e1 - (d2 + e2) - 24) (-149)) (e1 - e2)).
  set (sh := e1 - e2 - e').
  assert (Hsh : 0 <= sh) by (subst sh e'; lia).
  set (m' := match sh with Z0 => Zpos m1 | Zpos _ => Z.shiftl (Zpos m1) sh | Zneg _ => 0 end).
  assert (Hm' : m' = Zpos m1 * 2 ^ sh).
  { subst m'. destruct sh as [|p|p] eqn:E; [rewrite Z.pow_0_r; lia | | lia].
    apply Z.shiftl_mul_pow2. lia. }
  pose proof (Z.div_mod m' (Zpos m2) ltac:(lia)) as Hdm.
  pose proof (Z.mod_pos_bound m' (Zpos m2) ltac:(lia)) as Hmod.
  assert (Hq0 : 0 <= m' / Zpos m2) by (apply Z.div_pos; [rewrite Hm'|]; lia).
  unfold Z.div, Z.modulo in Hdm, Hmod, Hq0.
  destruct (Z.div_eucl m' (Zpos m2)) as [q r]. cbn [fst snd] in *.
  split; [exact Hq0|]. split; [subst e'; lia|].
  destruct (Zdigits2_nonneg q Hq0) as [[-> _]|[Hq ->]]; [lia|].
  assert (L : Z.log2 q + Z.log2 (Zpos m2) <= Z.log2 (Zpos m1) + sh).
  { transitivity (Z.log2 (q * Zpos m2)); [apply Z.log2_mul_below; lia|].
    transitivity (Z.log2 m'); [apply Z.log2_le_mono; nia|].
    rewrite Hm', Z.log2_mul_pow2 by lia. lia. }
  subst d1 d2. rewrite !Zdigits2_log2. lia.
Qed.

Lemma div_magnitude s1 m1 e1 s2 m2 e2 :
  Zdigits2 (Zpos m1) + e1 <= Zdigits2 (Zpos m2) + e2 ->
  below_pow2 2 (div (S754_finite s1 m1 e1) (S754_finite s2 m2 e2)).
Proof.
  intros Hmag. unfold div, SFdiv.
  pose proof (div_core_magnitude m1 e1 m2 e2) as H.
  destruct (SFdiv_core_binary prec emax (Zpos m1) e1 (Zpos m2) e2) as [[q e'] l].
  destruct H as (Hq & He & Hd).
  destruct (binary_round_aux_magnitude (xorb s1 s2) q e' l Hq ltac:(lia) ltac:(lia))
    as [E|[m [e [E Hm]]]]; rewrite E.
  - left. eauto.
  - right. exists (xorb s1 s2), m, e. split; [reflexivity|lia].
Qed.

(** Of two positive numbers in canonical form the smaller has the smaller
    magnitude. *)
Lemma ltb_magnitude m1 e1 m2 e2 :
  valid_binary prec emax (S754_finite false m1 e1) = true ->
  valid_binary prec emax (S754_finite false m2 e2) = true ->
  ltb (S754_finite false m1 e1) (S754_finite false m2 e2) = true ->
  Zdigits2 (Zpos m1) + e1 <= Zdigits2 (Zpos m2) + e2.
Proof.
  cbn [valid_binary]. unfold bounded, canonical_mantissa.
  rewrite !andb_true_iff, !Z.eqb_eq, !Z.leb_le, !fexp_eq.
  change (Zpos (digits2_pos m1)) with (Zdigits2 (Zpos m1)).
  change (Zpos (digits2_pos m2)) with (Zdigits2 (Zpos m2)).
  intros [C1 _] [C2 _]. unfold ltb, SFltb. cbn [SFcompare].
  destruct (Z.compare_spec e1 e2) as [->|Hlt|Hgt]; [|lia|discriminate].
  rewrite Pos.compare_cont_spec. cbn [Pos.switch_Eq].
  destruct (Pos.compare_spec m1 m2) as [->|Hm|Hm]; try discriminate. intros _.
  rewrite !Zdigits2_log2.
  assert (Z.log2 (Zpos m1) <= Z.log2 (Zpos m2)) by (apply Z.log2_le_mono; lia).
  lia.
Qed.

Lemma of_int_magnitude n :
  Z.abs n < 2 ^ 24 -> below_pow2 25 (of_int n).
Proof.
  intros Hn.
  assert (Hr : forall s p, Zpos p < 2 ^ 24 ->
                 below_pow2 25 (binary_round prec emax s p 0)).
  { intros s p Hp.
    assert (L : Z.log2 (Zpos p) < 24) by (apply Z.log2_lt_pow2; lia).
    pose proof (Z.log2_nonneg (Zpos p)) as L0.
    unfold binary_round, shl_align.
    change (Zpos (digits2_pos p)) with (Zdigits2 (Zpos p)).
    rewrite fexp_eq, Zdigits2_log2.
    destruct (Z.max (Z.log2 (Zpos p) + 1 + 0 - 24) (-149) - 0) as [|k|k] eqn:E;
      [ | lia | ].
    - destruct (binary_round_aux_magnitude s (Zpos p) 0 loc_Exact)
        as [E'|[m [e [E' Hm]]]]; rewrite ?Zdigits2_log2; try lia; rewrite E'.
      + left. eauto.
      + right. exists s, m, e. split; [reflexivity|].
        rewrite (Zdigits2_log2 p) in Hm. lia.
    - assert (D : Zdigits2 (Zpos (Pos.iter xO p k)) = Z.log2 (Zpos p) + Zpos k + 1).
      { rewrite Zdigits2_log2, Zpos_iter_xO, Z.log2_shiftl by lia. reflexivity. }
      destruct (binary_round_aux_magnitude s (Zpos (Pos.iter xO p k))
                  (Z.max (Z.log2 (Zpos p) + 1 + 0 - 24) (-149)) loc_Exact)
        as [E'|[m [e [E' Hm]]]]; try rewrite D; try lia; rewrite E'.
      + left. eauto.
      + right. exists s, m, e. split; [reflexivity|]. rewrite D in Hm. lia. }
  destruct n as [|p|p]; [left; exists false; reflexivity| |]; apply Hr; lia.
Qed.

Lemma mul_magnitude a b x y :
  below_pow2 a x -> below_pow2 b y -> -149 <= a + b <= 100 ->
  below_pow2 (a + b + 1) (mul x y).
Proof.
  intros [[sx ->]|(sx & mx & ex & -> & Hx)] [[sy ->]|(sy & my & ey & -> & Hy)] Hab;
    unfold mul, SFmul; try (left; eauto; fail).
  assert (Hd : Zdigits2 (Zpos (mx * my)) <= Zdigits2 (Zpos mx) + Zdigits2 (Zpos my)).
  { rewrite !Zdigits2_log2, Pos2Z.inj_mul.
    pose proof (Z.log2_mul_above (Zpos mx) (Zpos my) ltac:(lia) ltac:(lia)). lia. }
  pose proof (Zdigits2_log2 mx) as D1. pose proof (Z.log2_nonneg (Zpos mx)) as N1.
  pose proof (Zdigits2_log2 my) as D2. pose proof (Z.log2_nonneg (Zpos my)) as N2.
  destruct (binary_round_aux_magnitude (xorb sx sy) (Zpos (mx * my)) (ex + ey) loc_Exact)
    as [E|[m [e [E Hm]]]]; try lia; rewrite E.
  - left. eauto.
  - right. exists (xorb sx sy), m, e. split; [reflexivity|lia].
Qed.

Lemma shiftl_below m e k :
  Zdigits2 (Zpos m) + e <= k -> 0 <= k -> 0 <= Z.shiftl (Zpos m) e < 2 ^ k.
Proof.
  rewrite Zdigits2_log2. intros Hk Hk0.
  pose proof (Z.log2_spec (Zpos m) ltac:(lia)) as [_ Hu].
  pose proof (Z.log2_nonneg (Zpos m)) as L0.
  split; [apply Z.shiftl_nonneg; lia|].
  destruct (Z_le_gt_dec 0 e) as [He|He].
  - rewrite Z.shiftl_mul_pow2 by lia.
    apply Z.lt_le_trans with (2 ^ (Z.log2 (Zpos m) + 1 + e)).
    + rewrite (Z.pow_add_r 2 (Z.log2 (Zpos m) + 1) e) by lia.
      apply Z.mul_lt_mono_pos_r; [apply Z.pow_pos_nonneg; lia|].
      replace (Z.log2 (Zpos m) + 1) with (Z.succ (Z.log2 (Zpos m))) by lia. exact Hu.
    + apply Z.pow_le_mono_r; lia.
  - rewrite Z.shiftl_div_pow2 by lia.
    destruct (Z_le_gt_dec 0 (Z.log2 (Zpos m) + 1 + e)) as [Hs|Hs].
    + apply Z.lt_le_trans with (2 ^ (Z.log2 (Zpos m) + 1 + e));
        [|apply Z.pow_le_mono_r; lia].
      apply Z.div_lt_upper_bound; [apply Z.pow_pos_nonneg; lia|].
      rewrite <- Z.pow_add_r by lia.
      replace (- e + (Z.log2 (Zpos m) + 1 + e)) with (Z.succ (Z.log2 (Zpos m))) by lia.
      exact Hu.
    + rewrite Z.div_small; [apply Z.pow_pos_nonneg; lia|].
      split; [lia|].
      apply Z.lt_le_trans with (2 ^ Z.succ (Z.log2 (Zpos m))); [exact Hu|].
      apply Z.pow_le_mono_r; lia.
Qed.

Lemma truncate_fits k x :
  below_pow2 k x -> k <= 31 ->
  exists z, truncate x = Some z /\ in_int z.
Proof.
  intros [[s ->]|(s & m & e & -> & Hm)] Hk.
  - exists 0. split; [reflexivity|]. unfold in_int, INT_MIN, INT_MAX. lia.
  - cbn [truncate]. eexists. split; [reflexivity|].
    pose proof (shiftl_below m e (Z.max 0 k) ltac:(lia) ltac:(lia)) as [H0 H1].
    assert (2 ^ Z.max 0 k <= 2 ^ 31) by (apply Z.pow_le_mono_r; lia).
    change (2 ^ 31) with 2147483648 in *.
    unfold in_int, INT_MIN, INT_MAX. destruct s; lia.
Qed.

Lemma to_int_truncate x z :
  truncate x = Some z -> in_int z -> to_int x = z.
Proof.
  unfold to_int, in_int. intros -> H. lia.
Qed.

(** The product the debug simulation casts to [int] fits an [int] when the
    target lies below the full torque and the largest deviation below
    [2 ^ 24]. *)
Lemma simulated_deviation_fits mt et mM eM D :
  valid_binary prec emax (S754_finite false mt et) = true ->
  valid_binary prec emax (S754_finite false mM eM) = true ->
  ltb (S754_finite false mt et) (S754_finite false mM eM) = true ->
  Z.abs D < 2 ^ 24 ->
  exists z,
    truncate (mul (div (S754_finite false mt et) (S754_finite false mM eM))
                  (of_int D)) = Some z
    /\ in_int z.
Proof.
  intros Vt VM Hlt HD.
  apply (truncate_fits 28); [|lia].
  apply (mul_magnitude 2 25); [ | apply of_int_magnitude; exact HD | lia].
  apply div_magnitude, ltb_magnitude; assumption.
Qed.

End Float32Facts.

(** ** Torque evaluation *)

Section EvaluationProperties.

Variable TORQUE_MAX_BACKWARD : Z.
Variable TORQUE_MAX_FORWARD : Z.
Variable TORQUE_THRESHOLD : Z.
Variable TORQUE_MAX_NM : Float32.float.
Variable update_debug_simulation : SensorGlobals -> SensorGlobals.

Local Abbreviation evaluate :=
  (update_torque TORQUE_MAX_BACKWARD TORQUE_MAX_FORWARD TORQUE_THRESHOLD
     TORQUE_MAX_NM update_debug_simulation).
Local Abbreviation baseline_of g := (torque_standstill_calibrated (calibration g)).

(** The two clamping tests leave [0.0] alone whatever [TORQUE_MAX_NM] is. *)
Lemma clamp_zero :
  (let above := if Float32.ltb TORQUE_MAX_NM Float32.zero
                then TORQUE_MAX_NM else Float32.zero in
   if Float32.ltb above Float32.zero then Float32.zero else above)
  = Float32.zero.
Proof.
  destruct TORQUE_MAX_NM as [s|s| |s m e]; try destruct s; reflexivity.
Qed.

(** On both paths [filtered_torque] is a copy of [crank_torque_nm]. *)
Lemma filtered_is_crank g adc :
  filtered_torque (evaluate g adc) = crank_torque_nm (evaluate g adc).
Proof.
  unfold update_torque.
  destruct (debug_mode g && debug_simulate_torque g); reflexivity.
Qed.

(** C5: outside the debug simulation, a raw sample strictly closer to the
    baseline than [TORQUE_THRESHOLD] is reported as a torque of exactly
    [0.0]. *)
Theorem dead_zone_zero_torque g adc :
  debug_mode g && debug_simulate_torque g = false ->
  TORQUE_THRESHOLD <= INT_MAX ->
  baseline_of g - TORQUE_THRESHOLD < adc < baseline_of g + TORQUE_THRESHOLD ->
  crank_torque_nm (evaluate g adc) = Float32.zero
  /\ filtered_torque (evaluate g adc) = Float32.zero.
Proof.
  intros Hmode HT Hr.
  rewrite filtered_is_crank.
  assert (E : crank_torque_nm (evaluate g adc) = Float32.zero);
    [|split; exact E].
  unfold update_torque. rewrite Hmode. cbv zeta. cbn [crank_torque_nm].
  rewrite (wrap_int_small (adc - baseline_of g))
    by (unfold in_int, INT_MIN, INT_MAX in *; lia).
  rewrite int_abs_small by (unfold INT_MIN, INT_MAX in *; lia).
  destruct (Z.ltb_spec (Z.abs (adc - baseline_of g)) TORQUE_THRESHOLD); [|lia].
  apply clamp_zero.
Qed.

(** C6: the samples [baseline + d] and [baseline - d] are reported as the
    same torque. *)
Theorem evaluation_symmetric g d :
  in_int (baseline_of g + d) ->
  in_int (baseline_of g - d) ->
  crank_torque_nm (evaluate g (baseline_of g + d))
  = crank_torque_nm (evaluate g (baseline_of g - d))
  /\ filtered_torque (evaluate g (baseline_of g + d))
     = filtered_torque (evaluate g (baseline_of g - d)).
Proof.
  intros Hp Hm.
  rewrite !filtered_is_crank.
  assert (E : crank_torque_nm (evaluate g (baseline_of g + d))
              = crank_torque_nm (evaluate g (baseline_of g - d)));
    [|split; exact E].
  unfold update_torque.
  destruct (debug_mode g && debug_simulate_torque g); [reflexivity|].
  cbv zeta. cbn [crank_torque_nm].
  replace (baseline_of g + d - baseline_of g) with d by lia.
  replace (baseline_of g - d - baseline_of g) with (- d) by lia.
  unfold in_int, INT_MIN, INT_MAX in *.
  rewrite (wrap_int_small d), (wrap_int_small (- d))
    by (unfold in_int, INT_MIN, INT_MAX; lia).
  rewrite !int_abs_small by (unfold INT_MIN, INT_MAX; lia).
  rewrite Z.abs_opp. reflexivity.
Qed.

(** C8: in the debug simulation, for a simulated target [t] strictly
    between [0.0] and [TORQUE_MAX_NM], the reported torque is [t] itself,
    bit for bit, whether or not the synthetic raw sample falls into the
    dead zone; the result is a function of the simulated input alone, the
    sensor not being read.  The synthetic raw sample is the baseline plus
    the truncated product [t / TORQUE_MAX_NM * max_deviation], and that
    cast has a value (for numbers in canonical form and a largest
    deviation below [2 ^ 24]). *)
Theorem debug_simulation_reports_target g adc t :
  debug_mode g = true ->
  debug_simulate_torque g = true ->
  debug_torque_nm (update_debug_simulation g) = t ->
  Float32.ltb Float32.zero t = true ->
  Float32.ltb t TORQUE_MAX_NM = true ->
  crank_torque_nm (evaluate g adc) = t
  /\ filtered_torque (evaluate g adc) = t
  /\ (forall adc', evaluate g adc' = evaluate g adc)
  /\ (valid_binary Float32.prec Float32.emax t = true ->
      Float32.positive_finite TORQUE_MAX_NM ->
      Z.abs (Z.max (wrap_int (baseline_of (update_debug_simulation g)
                              - TORQUE_MAX_BACKWARD))
                   (wrap_int (TORQUE_MAX_FORWARD
                              - baseline_of (update_debug_simulation g))))
      < 2 ^ 24 ->
      exists z,
        Float32.truncate
          (Float32.mul (Float32.div t TORQUE_MAX_NM)
             (Float32.of_int
                (Z.max (wrap_int (baseline_of (update_debug_simulation g)
                                  - TORQUE_MAX_BACKWARD))
                       (wrap_int (TORQUE_MAX_FORWARD
                                  - baseline_of (update_debug_simulation g))))))
        = Some z
        /\ in_int z
        /\ raw_torque_value (evaluate g adc)
           = wrap_int (baseline_of (update_debug_simulation g) + z)).
Proof.
  intros Hd Hs Ht Hpos Hlt.
  unfold update_torque. rewrite Hd, Hs. cbn [andb]. cbv zeta.
  cbn [crank_torque_nm filtered_torque raw_torque_value].
  rewrite Ht, Hpos. repeat split.
  intros Vt [mM [eM [HM VM]]] HD.
  destruct t as [st|st| |st mt et]; try discriminate Hpos;
    destruct st; try discriminate Hpos.
  { rewrite HM in Hlt. discriminate Hlt. }
  rewrite HM in *.
  destruct (Float32Facts.simulated_deviation_fits mt et mM eM _ Vt VM Hlt HD)
    as [z [Hz Hi]].
  exists z. rewrite (Float32Facts.to_int_truncate _ _ Hz Hi). auto.
Qed.

End EvaluationProperties.

Section ScalingProperties.
Import Float32 Float32Facts.

Variable TORQUE_MAX_BACKWARD : Z.
Variable TORQUE_MAX_FORWARD : Z.
Variable TORQUE_THRESHOLD : Z.
Variable TORQUE_MAX_NM : Float32.float.
Variable update_debug_simulation : SensorGlobals -> SensorGlobals.

Local Abbreviation evaluate :=
  (update_torque TORQUE_MAX_BACKWARD TORQUE_MAX_FORWARD TORQUE_THRESHOLD
     TORQUE_MAX_NM update_debug_simulation).
Local Abbreviation baseline_of g := (torque_standstill_calibrated (calibration g)).
Local Abbreviation extent := (max_extent TORQUE_MAX_BACKWARD TORQUE_MAX_FORWARD).
Local Abbreviation farther := (farther_extent TORQUE_MAX_BACKWARD TORQUE_MAX_FORWARD).
Local Abbreviation nearer := (nearer_extent TORQUE_MAX_BACKWARD TORQUE_MAX_FORWARD).

(** The two clamping tests bring any number that is not a NaN into
    [0, TORQUE_MAX_NM]. *)
Lemma clamp_in_bounds mM eM s x :
  signed_as s x ->
  leb zero
    (if ltb (if ltb (S754_finite false mM eM) x then S754_finite false mM eM else x) zero
     then zero
     else if ltb (S754_finite false mM eM) x then S754_finite false mM eM else x)
  = true
  /\ leb
       (if ltb (if ltb (S754_finite false mM eM) x then S754_finite false mM eM else x) zero
        then zero
        else if ltb (S754_finite false mM eM) x then S754_finite false mM eM else x)
       (S754_finite false mM eM)
     = true.
Proof.
  assert (Z1 : forall m e, SFcompare (S754_finite false m e) zero = Some Gt)
    by reflexivity.
  assert (Z2 : forall m e, SFcompare zero (S754_finite false m e) = Some Lt)
    by reflexivity.
  intros [->|[->|[m [e ->]]]].
  - destruct s; split; reflexivity.
  - destruct s; [split; reflexivity|].
    unfold ltb, leb, SFltb, SFleb, zero. cbn [SFcompare].
    rewrite Z.compare_refl, Pos.compare_cont_refl. split; reflexivity.
  - destruct s; [split; reflexivity|].
    unfold ltb, leb, SFltb, SFleb.
    rewrite (compare_positive_antisym m e mM eM).
    destruct (SFcompare (S754_finite false m e) (S754_finite false mM eM))
      as [[ | | ]|] eqn:E; try (cbn [SFcompare] in E; discriminate E);
      cbn [option_map CompOpp]; cbv iota;
      rewrite ?Z1; cbv iota; rewrite ?Z2, ?E, ?compare_finite_refl;
      split; reflexivity.
Qed.


(** What the normal path computes before clamping is never a NaN when the
    threshold is positive. *)
Lemma scaled_signed mM eM a D :
  0 < a -> in_int a -> in_int D ->
  exists s, signed_as s
    (mul (div (of_int a) (of_int D)) (S754_finite false mM eM)).
Proof.
  intros Ha Hia HiD.
  destruct (of_int_finite a ltac:(lia) Hia) as [ma [ea Ea]]. rewrite Ea.
  destruct (Z.eq_dec D 0) as [->|HD].
  - exists (xorb (xorb (a <? 0) false) false).
    apply mul_signed. right. left. reflexivity.
  - destruct (of_int_finite D HD HiD) as [mD [eD ED]]. rewrite ED.
    exists (xorb (xorb (a <? 0) (D <? 0)) false).
    apply mul_signed, div_signed.
Qed.

Lemma max_extent_positive baseline :
  TORQUE_MAX_BACKWARD < TORQUE_MAX_FORWARD -> 0 < extent baseline.
Proof. unfold max_extent. lia. Qed.

Lemma torque_in_bounds g adc mM eM :
  debug_mode g && debug_simulate_torque g = false ->
  TORQUE_MAX_NM = S754_finite false mM eM ->
  0 < TORQUE_THRESHOLD ->
  leb zero (crank_torque_nm (evaluate g adc)) = true
  /\ leb (crank_torque_nm (evaluate g adc)) TORQUE_MAX_NM = true.
Proof.
  intros Hmode HM HT.
  unfold update_torque. rewrite Hmode. cbv zeta. cbn [crank_torque_nm].
  set (a := int_abs (wrap_int (adc - baseline_of g))).
  set (D := Z.max (wrap_int (baseline_of g - TORQUE_MAX_BACKWARD))
                  (wrap_int (TORQUE_MAX_FORWARD - baseline_of g))).
  rewrite HM.
  destruct (Z.ltb_spec a TORQUE_THRESHOLD) as [_|Ha].
  - apply (clamp_in_bounds mM eM false). left. reflexivity.
  - assert (HiD : in_int D).
    { subst D.
      pose proof (wrap_int_in_int (baseline_of g - TORQUE_MAX_BACKWARD)).
      pose proof (wrap_int_in_int (TORQUE_MAX_FORWARD - baseline_of g)).
      unfold in_int in *. lia. }
    destruct (scaled_signed mM eM a D ltac:(lia) (wrap_int_in_int _) HiD) as [s Hs].
    apply (clamp_in_bounds mM eM s). exact Hs.
Qed.


Lemma saturation_at_farther_extent g mM eM :
  debug_mode g && debug_simulate_torque g = false ->
  TORQUE_MAX_NM = S754_finite false mM eM ->
  valid_binary prec emax TORQUE_MAX_NM = true ->
  0 <= TORQUE_MAX_BACKWARD <= baseline_of g ->
  baseline_of g <= TORQUE_MAX_FORWARD <= INT_MAX ->
  0 < extent (baseline_of g) ->
  TORQUE_THRESHOLD <= extent (baseline_of g) ->
  crank_torque_nm (evaluate g (farther (baseline_of g))) = TORQUE_MAX_NM.
Proof.
  intros Hmode HM Hv Hb Hf Hpos HT.
  unfold update_torque. rewrite Hmode. cbv zeta. cbn [crank_torque_nm].
  set (b := baseline_of g) in *.
  unfold INT_MAX in Hf.
  assert (Ha : int_abs (wrap_int (farther b - b)) = extent b).
  { unfold farther_extent, max_extent in *.
    destruct (Z.leb_spec (TORQUE_MAX_FORWARD - b) (b - TORQUE_MAX_BACKWARD));
      rewrite wrap_int_small by (unfold in_int, INT_MIN, INT_MAX; lia);
      rewrite int_abs_small by (unfold INT_MIN, INT_MAX; lia); lia. }
  assert (HD : Z.max (wrap_int (b - TORQUE_MAX_BACKWARD))
                     (wrap_int (TORQUE_MAX_FORWARD - b)) = extent b).
  { unfold max_extent.
    rewrite !wrap_int_small by (unfold in_int, INT_MIN, INT_MAX; lia).
    reflexivity. }
  rewrite Ha, HD.
  destruct (Z.ltb_spec (extent b) TORQUE_THRESHOLD) as [Hlt|_]; [lia|].
  destruct (of_int_finite (extent b)) as [m [e E]];
    [lia | unfold max_extent, in_int, INT_MIN, INT_MAX; lia |].
  rewrite E, div_self. rewrite HM in Hv |- *. rewrite (mul_one_l _ _ _ Hv).
  unfold ltb, SFltb. rewrite compare_finite_refl. reflexivity.
Qed.

(** Only a range of no width, which the sensor's range excludes, makes
    [max_extent] zero; the code has no test for it and would divide all
    the same. *)
Lemma zero_extent_divides g adc mM eM :
  debug_mode g && debug_simulate_torque g = false ->
  TORQUE_MAX_NM = S754_finite false mM eM ->
  in_int (baseline_of g - TORQUE_MAX_BACKWARD) ->
  in_int (TORQUE_MAX_FORWARD - baseline_of g) ->
  extent (baseline_of g) = 0 ->
  - INT_MAX <= adc - baseline_of g <= INT_MAX ->
  adc <> baseline_of g ->
  TORQUE_THRESHOLD <= Z.abs (adc - baseline_of g) ->
  crank_torque_nm (evaluate g adc) = TORQUE_MAX_NM.
Proof.
  intros Hmode HM Hib Hif H0 Hr Hne HT.
  unfold update_torque. rewrite Hmode. cbv zeta. cbn [crank_torque_nm].
  set (b := baseline_of g) in *.
  rewrite (wrap_int_small (adc - b)) by (unfold in_int, INT_MIN, INT_MAX in *; lia).
  rewrite int_abs_small by (unfold INT_MIN, INT_MAX in *; lia).
  rewrite !wrap_int_small by assumption.
  fold (extent b). rewrite H0.
  destruct (Z.ltb_spec (Z.abs (adc - b)) TORQUE_THRESHOLD) as [Hlt|_]; [lia|].
  destruct (of_int_finite (Z.abs (adc - b))) as [m [e E]];
    [lia | unfold in_int, INT_MIN, INT_MAX in *; lia |].
  rewrite E, HM.
  destruct (Z.ltb_spec (Z.abs (adc - b)) 0); [lia|]. reflexivity.
Qed.


(** Outside the dead zone the report is the specification's scaling rule
    at the distance of the sample from the baseline. *)
Lemma scaled_outside_dead_zone g adc :
  debug_mode g && debug_simulate_torque g = false ->
  0 <= TORQUE_MAX_BACKWARD <= baseline_of g ->
  baseline_of g <= TORQUE_MAX_FORWARD <= INT_MAX ->
  - INT_MAX <= adc - baseline_of g <= INT_MAX ->
  TORQUE_THRESHOLD <= Z.abs (adc - baseline_of g) ->
  crank_torque_nm (evaluate g adc)
  = scaled_and_clamped TORQUE_MAX_NM (Z.abs (adc - baseline_of g))
      (extent (baseline_of g)).
Proof.
  intros Hmode Hb Hf Hr HT.
  unfold update_torque. rewrite Hmode. cbv zeta. cbn [crank_torque_nm].
  set (b := baseline_of g) in *. unfold INT_MAX in *.
  rewrite (wrap_int_small (adc - b)) by (unfold in_int, INT_MIN, INT_MAX; lia).
  rewrite int_abs_small by (unfold INT_MIN, INT_MAX; lia).
  rewrite !wrap_int_small by (unfold in_int, INT_MIN, INT_MAX; lia).
  fold (extent b).
  destruct (Z.ltb_spec (Z.abs (adc - b)) TORQUE_THRESHOLD) as [Hlt|_]; [lia|].
  reflexivity.
Qed.


(** C4, as amended: outside the debug simulation and with a positive
    threshold, the reported torque lies in [0, TORQUE_MAX_NM] for every raw
    sample.  For a baseline between the two physical extents, the raw
    sample at the extent farther from the baseline is reported as exactly
    [TORQUE_MAX_NM], provided that extent lies outside the dead zone;
    the sample at the nearer extent, like every sample outside the dead
    zone, is reported as its distance from the baseline divided by
    [max_extent] and multiplied by [TORQUE_MAX_NM], in single precision
    and clamped to [0, TORQUE_MAX_NM]. *)
Theorem saturation_and_bounds g :
  debug_mode g && debug_simulate_torque g = false ->
  positive_finite TORQUE_MAX_NM ->
  0 < TORQUE_THRESHOLD ->
  (forall adc,
      leb zero (crank_torque_nm (evaluate g adc)) = true
      /\ leb (crank_torque_nm (evaluate g adc)) TORQUE_MAX_NM = true)
  /\ (0 <= TORQUE_MAX_BACKWARD <= baseline_of g ->
      baseline_of g <= TORQUE_MAX_FORWARD <= INT_MAX ->
      (TORQUE_THRESHOLD <= extent (baseline_of g) ->
       crank_torque_nm (evaluate g (farther (baseline_of g))) = TORQUE_MAX_NM)
      /\ (TORQUE_THRESHOLD
          <= Z.min (baseline_of g - TORQUE_MAX_BACKWARD)
                   (TORQUE_MAX_FORWARD - baseline_of g) ->
          crank_torque_nm (evaluate g (nearer (baseline_of g)))
          = scaled_and_clamped TORQUE_MAX_NM
              (Z.min (baseline_of g - TORQUE_MAX_BACKWARD)
                     (TORQUE_MAX_FORWARD - baseline_of g))
              (extent (baseline_of g)))
      /\ (forall adc,
            - INT_MAX <= adc - baseline_of g <= INT_MAX ->
            TORQUE_THRESHOLD <= Z.abs (adc - baseline_of g) ->
            crank_torque_nm (evaluate g adc)
            = scaled_and_clamped TORQUE_MAX_NM (Z.abs (adc - baseline_of g))
                (extent (baseline_of g)))).
Proof.
  intros Hmode [mM [eM [HM Hv]]] HT. split.
  - intros adc. apply (torque_in_bounds g adc mM eM); assumption.
  - intros Hb Hf. split; [|split].
    + intros Hext. apply (saturation_at_farther_extent g mM eM); auto. lia.
    + intros Hnear.
      assert (Ha : Z.abs (nearer (baseline_of g) - baseline_of g)
                   = Z.min (baseline_of g - TORQUE_MAX_BACKWARD)
                           (TORQUE_MAX_FORWARD - baseline_of g)).
      { unfold nearer_extent.
        destruct (Z.leb_spec (TORQUE_MAX_FORWARD - baseline_of g)
                    (baseline_of g - TORQUE_MAX_BACKWARD)); lia. }
      rewrite <- Ha. unfold INT_MAX in *.
      apply scaled_outside_dead_zone; auto; unfold INT_MAX; lia.
    + intros adc Hr Hout. apply scaled_outside_dead_zone; auto.
Qed.

End ScalingProperties.



(** C4, as stated, fails: with the extents 0 and 4095, the baseline 2000
    and a full torque of 80 Nm, the raw sample at the backward extent is
    reported as 2000 / 2095 * 80 Nm, about 76.4 Nm, which is below the full
    torque. *)
Lemma nearer_extent_counterexample :
  crank_torque_nm
    (update_torque 0 4095 10 (Float32.of_int 80) no_simulation
       (globals_with_baseline 2000) 0)
  = S754_finite false 10010272 (-17)
  /\ Float32.of_int 80 = S754_finite false 10485760 (-17)
  /\ Float32.ltb (S754_finite false 10010272 (-17)) (Float32.of_int 80) = true.
Proof. repeat split. Qed.

Lemma saturation_and_bounds_witness :
  (debug_mode (globals_with_baseline 2000)
     && debug_simulate_torque (globals_with_baseline 2000) = false
   /\ Float32.positive_finite (Float32.of_int 80)
   /\ 0 < 10)
  /\ Float32.leb Float32.zero
       (crank_torque_nm
          (update_torque 0 4095 10 (Float32.of_int 80) no_simulation
             (globals_with_baseline 2000) 0)) = true
  /\ Float32.leb
       (crank_torque_nm
          (update_torque 0 4095 10 (Float32.of_int 80) no_simulation
             (globals_with_baseline 2000) 0))
       (Float32.of_int 80) = true
  /\ crank_torque_nm
       (update_torque 0 4095 10 (Float32.of_int 80) no_simulation
          (globals_with_baseline 2000) 4095)
     = Float32.of_int 80
  /\ crank_torque_nm
       (update_torque 0 4095 10 (Float32.of_int 80) no_simulation
          (globals_with_baseline 2000) 0)
     = scaled_and_clamped (Float32.of_int 80) 2000 2095
  /\ crank_torque_nm
       (update_torque 0 4095 10 (Float32.of_int 80) no_simulation
          (globals_with_baseline 2000) 3000)
     = scaled_and_clamped (Float32.of_int 80) 1000 2095
  /\ scaled_and_clamped (Float32.of_int 80) 2000 2095
     = S754_finite false 10010272 (-17).
Proof.
  assert (H1 : debug_mode (globals_with_baseline 2000)
               && debug_simulate_torque (globals_with_baseline 2000) = false)
    by reflexivity.
  assert (H2 : Float32.positive_finite (Float32.of_int 80))
    by (exists 10485760%positive, (-17); split; reflexivity).
  assert (H3 : 0 < 10) by reflexivity.
  assert (H4 : 0 <= 0 <= 2000) by (split; discriminate).
  assert (H5 : 2000 <= 4095 <= INT_MAX) by (vm_compute; split; discriminate).
  pose proof (saturation_and_bounds 0 4095 10 (Float32.of_int 80) no_simulation
                (globals_with_baseline 2000) H1 H2 H3) as [Hbounds Hscale].
  destruct (Hscale H4 H5) as [Hsat [Hnear Hall]].
  split; [repeat split; assumption|].
  split; [exact (proj1 (Hbounds 0))|].
  split; [exact (proj2 (Hbounds 0))|].
  split; [apply Hsat; vm_compute; discriminate|].
  split; [apply Hnear; vm_compute; discriminate|].
  split; [apply (Hall 3000); vm_compute; try split; discriminate|].
  reflexivity.
Defined.

Lemma dead_zone_witness :
  (debug_mode (globals_with_baseline 2048)
     && debug_simulate_torque (globals_with_baseline 2048) = false
   /\ 10 <= INT_MAX
   /\ 2048 - 10 < 2050 < 2048 + 10)
  /\ crank_torque_nm
       (update_torque 0 4095 10 (Float32.of_int 80) no_simulation
          (globals_with_baseline 2048) 2050)
     = Float32.zero.
Proof.
  assert (H1 : debug_mode (globals_with_baseline 2048)
               && debug_simulate_torque (globals_with_baseline 2048) = false)
    by reflexivity.
  assert (H2 : 10 <= INT_MAX) by (vm_compute; discriminate).
  assert (H3 : 2048 - 10 < 2050 < 2048 + 10) by (split; reflexivity).
  split; [repeat split; try assumption; apply H3|].
  exact (proj1 (dead_zone_zero_torque 0 4095 10 (Float32.of_int 80) no_simulation
                  (globals_with_baseline 2048) 2050 H1 H2 H3)).
Defined.

Lemma evaluation_symmetric_witness :
  (in_int (2048 + 500) /\ in_int (2048 - 500))
  /\ crank_torque_nm
       (update_torque 0 4095 10 (Float32.of_int 80) no_simulation
          (globals_with_baseline 2048) (2048 + 500))
     = crank_torque_nm
         (update_torque 0 4095 10 (Float32.of_int 80) no_simulation
            (globals_with_baseline 2048) (2048 - 500)).
Proof.
  assert (H1 : in_int (2048 + 500)) by (vm_compute; split; discriminate).
  assert (H2 : in_int (2048 - 500)) by (vm_compute; split; discriminate).
  split; [split; assumption|].
  exact (proj1 (evaluation_symmetric 0 4095 10 (Float32.of_int 80) no_simulation
                  (globals_with_baseline 2048) 500 H1 H2)).
Defined.

Lemma debug_simulation_witness :
  (debug_mode (debug_globals_with_baseline 2048) = true
   /\ debug_simulate_torque (debug_globals_with_baseline 2048) = true
   /\ debug_torque_nm
        (simulate_target (Float32.of_int 40) (debug_globals_with_baseline 2048))
      = Float32.of_int 40
   /\ Float32.ltb Float32.zero (Float32.of_int 40) = true
   /\ Float32.ltb (Float32.of_int 40) (Float32.of_int 80) = true)
  /\ crank_torque_nm
       (update_torque 0 4095 10 (Float32.of_int 80)
          (simulate_target (Float32.of_int 40))
          (debug_globals_with_baseline 2048) 1234)
     = Float32.of_int 40
  /\ filtered_torque
       (update_torque 0 4095 10 (Float32.of_int 80)
          (simulate_target (Float32.of_int 40))
          (debug_globals_with_baseline 2048) 1234)
     = Float32.of_int 40
  /\ (exists z,
        Float32.truncate
          (Float32.mul (Float32.div (Float32.of_int 40) (Float32.of_int 80))
             (Float32.of_int (Z.max (wrap_int (2048 - 0)) (wrap_int (4095 - 2048)))))
        = Some z
        /\ in_int z
        /\ raw_torque_value
             (update_torque 0 4095 10 (Float32.of_int 80)
                (simulate_target (Float32.of_int 40))
                (debug_globals_with_baseline 2048) 1234)
           = wrap_int (2048 + z))
  /\ raw_torque_value
       (update_torque 0 4095 10 (Float32.of_int 80)
          (simulate_target (Float32.of_int 40))
          (debug_globals_with_baseline 2048) 1234)
     = 3072.
Proof.
  assert (H1 : debug_mode (debug_globals_with_baseline 2048) = true) by reflexivity.
  assert (H2 : debug_simulate_torque (debug_globals_with_baseline 2048) = true)
    by reflexivity.
  assert (H3 : debug_torque_nm
                 (simulate_target (Float32.of_int 40)
                    (debug_globals_with_baseline 2048))
               = Float32.of_int 40) by reflexivity.
  assert (H4 : Float32.ltb Float32.zero (Float32.of_int 40) = true) by reflexivity.
  assert (H5 : Float32.ltb (Float32.of_int 40) (Float32.of_int 80) = true)
    by reflexivity.
  pose proof (debug_simulation_reports_target 0 4095 10 (Float32.of_int 80)
                (simulate_target (Float32.of_int 40))
                (debug_globals_with_baseline 2048) 1234 (Float32.of_int 40)
                H1 H2 H3 H4 H5) as [Hcrank [Hfiltered [_ Hcast]]].
  split; [repeat split; assumption|].
  split; [exact Hcrank|]. split; [exact Hfiltered|]. split; [|reflexivity].
  apply Hcast.
  - reflexivity.
  - exists 10485760%positive, (-17). split; reflexivity.
  - vm_compute. reflexivity.
Defined.

(** The synthetic raw sample of the debug simulation is not an inverse of
    the normal path: for a target of 0.1 Nm it is 2050, which the normal
    path reports as zero (dead zone). *)
Lemma synthetic_sample_in_dead_zone :
  raw_torque_value
    (update_torque 0 4095 10 (Float32.of_int 80)
       (simulate_target (Float32.div (Float32.of_int 1) (Float32.of_int 10)))
       (debug_globals_with_baseline 2048) 0)
  = 2050
  /\ crank_torque_nm
       (update_torque 0 4095 10 (Float32.of_int 80)
          (simulate_target (Float32.div (Float32.of_int 1) (Float32.of_int 10)))
          (debug_globals_with_baseline 2048) 0)
     = Float32.div (Float32.of_int 1) (Float32.of_int 10)
  /\ crank_torque_nm
       (update_torque 0 4095 10 (Float32.of_int 80) no_simulation
          (globals_with_baseline 2048) 2050)
     = Float32.zero.
Proof. repeat split. Qed.

(** ** Mode control over BLE *)

Section ModeControlProperties.

Variable NUM_ACTIVE_PROFILES : Z.

Local Abbreviation onWrite := (ModeControl_onWrite NUM_ACTIVE_PROFILES).

(** C10: a write calls [changeAssistMode] exactly when its payload is not
    empty and its first byte is below [NUM_ACTIVE_PROFILES], with that byte
    as the new mode; an empty write and a write whose first byte is out of
    range leave the active mode as it was. *)
Theorem mode_control_write_guard (value : list byte) :
  (forall m,
      In (Call_changeAssistMode m) (onWrite value)
      <-> exists c rest,
            value = c :: rest /\ m = uint8_of_char c /\ m < NUM_ACTIVE_PROFILES)
  /\ (forall (Mode : Type) (changeAssistMode : Z -> Mode -> Mode) (active : Mode),
        (value = [] -> active_mode_after changeAssistMode (onWrite value) active = active)
        /\ (forall c rest,
               value = c :: rest -> NUM_ACTIVE_PROFILES <= uint8_of_char c ->
               active_mode_after changeAssistMode (onWrite value) active = active)
        /\ (forall c rest,
               value = c :: rest -> uint8_of_char c < NUM_ACTIVE_PROFILES ->
               active_mode_after changeAssistMode (onWrite value) active
               = changeAssistMode (uint8_of_char c) active)).
Proof.
  split.
  - intros m. destruct value as [|c rest]; cbn [ModeControl_onWrite].
    + split; [intros [] | intros [c [rest [E _]]]; discriminate E].
    + destruct (Z.ltb_spec (uint8_of_char c) NUM_ACTIVE_PROFILES) as [Hlt|Hge].
      * split.
        -- intros [E|[E|[E|[]]]]; try discriminate E.
           injection E as <-. exists c, rest. auto.
        -- intros [c' [rest' [E [-> _]]]]. injection E as <- <-.
           right. left. reflexivity.
      * split.
        -- intros [E|[E|[]]]; discriminate E.
        -- intros [c' [rest' [E [-> Hlt]]]]. injection E as <- <-. lia.
  - intros Mode changeAssistMode active. repeat split.
    + intros ->. reflexivity.
    + intros c rest -> Hge. cbn [ModeControl_onWrite].
      destruct (Z.ltb_spec (uint8_of_char c) NUM_ACTIVE_PROFILES); [lia|reflexivity].
    + intros c rest -> Hlt. cbn [ModeControl_onWrite].
      destruct (Z.ltb_spec (uint8_of_char c) NUM_ACTIVE_PROFILES); [reflexivity|lia].
Qed.

End ModeControlProperties.

(** With five profiles, the byte 3 selects mode 3 and the byte 7 is
    refused. *)
Lemma mode_control_write_witness :
  active_mode_after (fun m _ => m) (ModeControl_onWrite 5 [x03; x00]) 0 = 3
  /\ active_mode_after (fun m _ => m) (ModeControl_onWrite 5 [x07]) 0 = 0
  /\ ~ In (Call_changeAssistMode 7) (ModeControl_onWrite 5 [x07]).
Proof.
  split; [|split].
  - exact (proj2 (proj2 (proj2 (mode_control_write_guard 5 [x03; x00])
                           Z (fun m _ => m) 0))
             x03 [x00] eq_refl eq_refl).
  - exact (proj1 (proj2 (proj2 (mode_control_write_guard 5 [x07])
                           Z (fun m _ => m) 0))
             x07 [] eq_refl ltac:(vm_compute; discriminate)).
  - intros H.
    apply (proj1 (mode_control_write_guard 5 [x07]) 7) in H.
    destruct H as [c [rest [E [Hc Hlt]]]]. vm_compute in Hlt. discriminate Hlt.
Defined.

(** ** Access to the shared telemetry *)

Section TelemetryProperties.
Import Telemetry.

Lemma all_vesc_eq_untorn_from c obs :
  all_vesc_eq c obs = true -> untorn_from (Some c) obs = true.
Proof.
  induction obs as [|[f v] obs IH]; cbn; [reflexivity|].
  destruct (in_vesc_data f); cbn.
  - rewrite andb_true_iff. intros [-> H]. cbn. auto.
  - exact IH.
Qed.

(** Observations that all carry one tag are untorn. *)
Lemma all_vesc_eq_untorn c obs : all_vesc_eq c obs = true -> untorn obs = true.
Proof.
  unfold untorn.
  induction obs as [|[f v] obs IH]; cbn; [reflexivity|].
  destruct (in_vesc_data f) eqn:E; cbn.
  - rewrite andb_true_iff. intros [Hv H]. apply Z.eqb_eq in Hv. subst v.
    apply all_vesc_eq_untorn_from. exact H.
  - exact IH.
Qed.

Lemma all_vesc_eq_snoc c obs f v :
  all_vesc_eq c obs = true ->
  (in_vesc_data f = true -> v = c) ->
  all_vesc_eq c (obs ++ [(f, v)]) = true.
Proof.
  intros H Hv. unfold all_vesc_eq in *. rewrite forallb_app, H. cbn.
  destruct (in_vesc_data f); [|reflexivity].
  rewrite Hv by reflexivity. rewrite Z.eqb_refl. reflexivity.
Qed.

(** Between two transactions every field holds the tag committed last. *)
Lemma stored_outside pP c : driver_inside pP = false -> stored_at pP c = repeat c 6.
Proof. unfold stored_at. intros ->. reflexivity. Qed.

(** The invariant holds at boot and every event preserves it: the cases
    follow the position of the task that the event concerns. *)
Lemma invariant_boot : invariant boot.
Proof.
  exists 0%nat, 0%nat, 0%nat, 0, 0, [], []. repeat split; lia.
Qed.

Ltac use_positions :=
  repeat match goal with
         | E : ble_inside _ = _ |- _ => rewrite E
         | E : driver_inside _ = _ |- _ => rewrite E
         end.

Ltac give_witness pP pB pW c c' obsB obsW :=
  exists pP, pB, pW, c, c', obsB, obsW;
  cbn [tasks holder store];
  repeat match goal with |- _ /\ _ => split end;
  try assumption; try reflexivity; try lia;
  try (cbn; intros; first [reflexivity | discriminate | congruence]);
  try (unfold holder_at; cbn; use_positions; cbn; reflexivity);
  try (use_positions; cbn; reflexivity);
  try (subst; first [reflexivity | assumption]);
  try (rewrite stored_outside by assumption; cbn; congruence);
  try (apply all_vesc_eq_snoc;
       [subst; assumption | cbn; intros; first [congruence | discriminate]]).

Ltac by_position fuel p n tac :=
  lazymatch fuel with
  | O => idtac
  | S ?k => destruct p as [|p]; [ tac n | by_position k p constr:(S n) tac ]
  end.

Lemma invariant_step ev s : invariant s -> invariant (step ev s).
Proof.
  intros (pP & pB & pW & c & c' & obsB & obsW
          & HbP & HbB & HbW & Hcompat & Htasks & Hholder & Hstore & Hobs & Hc & H0).
  destruct s as [st h ts]. cbn [tasks holder store] in *. subst ts h.
  destruct ev as [tid|tid]; destruct tid as [|[|[|tid]]].
  - (* the driver runs *)
    by_position 17%nat pP 0%nat
      ltac:(fun n =>
        cbn in Hstore; injection Hstore as S1 S2 S3 S4 S5 S6;
        unfold holder_at, step; cbn;
        try (destruct (ble_inside pB) eqn:EB; try discriminate Hcompat);
        cbn;
        first
          [ solve [give_witness n pB pW c c' obsB obsW; cbn; try congruence]
          | solve [give_witness (S n) pB pW c c' obsB obsW; cbn; try congruence]
          | solve [give_witness (S n) pB pW 1 c' obsB obsW; cbn; try congruence]
          | solve [give_witness (S n) pB pW 2 c' obsB obsW; cbn; try congruence]
          | idtac ]).
    exfalso; lia.
  - (* the BLE task runs *)
    by_position 18%nat pB 0%nat
      ltac:(fun n =>
        destruct (driver_inside pP) eqn:EP;
        cbn in Hcompat; try discriminate Hcompat;
        try (rewrite (stored_outside _ _ EP) in Hstore; cbn in Hstore;
             injection Hstore as S1 S2 S3 S4 S5 S6);
        cbn in Hc; try specialize (Hc eq_refl);
        try specialize (H0 eq_refl);
        unfold holder_at, step; cbn; use_positions; cbn;
        first
          [ solve [give_witness pP n pW c c' obsB obsW]
          | solve [give_witness pP (S n) pW c c obsB obsW]
          | solve [give_witness pP (S n) pW c c' obsB obsW]
          | solve [give_witness pP (S n) pW c c
                     (obsB ++ [(nth (n - 1) ble_reads Vesc_speed_kmh,
                                st (nth (n - 1) ble_reads Vesc_speed_kmh))]) obsW]
          | idtac ]).
    exfalso; lia.
  - (* the status handler runs *)
    by_position 5%nat pW 0%nat
      ltac:(fun n =>
        unfold step; cbn;
        first
          [ solve [give_witness pP pB n c c' obsB obsW]
          | solve [give_witness pP pB (S n) c c' obsB
                     (obsW ++ [(nth n [Vesc_speed_kmh; Vesc_battery_percentage;
                                       Sensor_current_mode; Sensor_filtered_torque]
                                  Vesc_speed_kmh,
                                st (nth n [Vesc_speed_kmh; Vesc_battery_percentage;
                                           Sensor_current_mode; Sensor_filtered_torque]
                                      Vesc_speed_kmh))])]
          | idtac ]).
    exfalso; lia.
  - (* no such task *)
    unfold step; cbn; destruct tid; cbn; give_witness pP pB pW c c' obsB obsW.
  - (* the driver's wait expires *)
    by_position 17%nat pP 0%nat
      ltac:(fun n =>
        cbn in Hstore; injection Hstore as S1 S2 S3 S4 S5 S6;
        unfold holder_at, step; cbn;
        try (destruct (ble_inside pB) eqn:EB; try discriminate Hcompat);
        cbn;
        first
          [ solve [give_witness n pB pW c c' obsB obsW; cbn; try congruence]
          | solve [give_witness (8 + n)%nat pB pW c c' obsB obsW; cbn; try congruence]
          | idtac ]).
    exfalso; lia.
  - (* the BLE task's wait expires *)
    by_position 18%nat pB 0%nat
      ltac:(fun n =>
        destruct (driver_inside pP) eqn:EP;
        cbn in Hcompat; try discriminate Hcompat;
        cbn in Hc; try specialize (Hc eq_refl);
        try specialize (H0 eq_refl);
        unfold holder_at, step; cbn; use_positions; cbn;
        first
          [ solve [give_witness pP n pW c c' obsB obsW]
          | solve [give_witness pP 17%nat pW c c' obsB obsW]
          | idtac ]).
    exfalso; lia.
  - (* the status handler never waits *)
    by_position 5%nat pW 0%nat
      ltac:(fun n =>
        unfold step; cbn;
        first [ solve [give_witness pP pB n c c' obsB obsW] | idtac ]).
    exfalso; lia.
  - unfold step; cbn; destruct tid; cbn; give_witness pP pB pW c c' obsB obsW.
Qed.

(** Whatever the schedule, what [updateBLETelemetryData] has read of
    [sharedVescData] comes from one transaction: the semaphore does its
    work where it is taken. *)
Theorem ble_reads_untorn schedule :
  untorn (observed_by 1 (run schedule boot)) = true.
Proof.
  assert (H : invariant (run schedule boot)).
  { unfold run. generalize invariant_boot. generalize boot.
    induction schedule as [|ev schedule IH]; intros s Hs; cbn [fold_left].
    - exact Hs.
    - apply IH, invariant_step, Hs. }
  destruct H as (pP & pB & pW & c & c' & obsB & obsW
                 & _ & _ & _ & _ & Htasks & _ & _ & Hobs & _).
  unfold observed_by. rewrite Htasks. cbn [nth_error observed].
  apply (all_vesc_eq_untorn c'). exact Hobs.
Qed.

End TelemetryProperties.

(** [updateBLETelemetryData] opens with the semaphore; [handleStatusAPI]
    never takes it. *)
Lemma status_handler_takes_no_semaphore :
  (exists guarded rest,
      Telemetry.updateBLETelemetryData = Telemetry.Take guarded :: rest)
  /\ forall guarded, ~ In (Telemetry.Take guarded) Telemetry.handleStatusAPI.
Proof.
  split.
  - eexists _, _. reflexivity.
  - intros guarded [E|[E|[E|[E|[]]]]]; discriminate E.
Qed.

(** C7 fails on [handleStatusAPI]: the driver completes transaction 1, the
    handler reads [speed_kmh], the driver completes transaction 2, and the
    handler reads the rest.  Its answer carries the speed of transaction 1
    next to the battery level of transaction 2. *)
Theorem status_handler_reads_torn :
  Telemetry.observed_by 2
    (Telemetry.run
       (repeat (Telemetry.Run 0) 8 ++ [Telemetry.Run 2]
        ++ repeat (Telemetry.Run 0) 8 ++ repeat (Telemetry.Run 2) 3)
       Telemetry.boot)
  = [ (Telemetry.Vesc_speed_kmh, 1); (Telemetry.Vesc_battery_percentage, 2);
      (Telemetry.Sensor_current_mode, 0); (Telemetry.Sensor_filtered_torque, 0) ]
  /\ Telemetry.untorn
       (Telemetry.observed_by 2
          (Telemetry.run
             (repeat (Telemetry.Run 0) 8 ++ [Telemetry.Run 2]
              ++ repeat (Telemetry.Run 0) 8 ++ repeat (Telemetry.Run 2) 3)
             Telemetry.boot))
     = false.
Proof. split; reflexivity. Qed.

(** The handler is not held back while the driver is in the middle of a
    transaction either. *)
Lemma status_handler_reads_during_transaction :
  Telemetry.holder
    (Telemetry.run (repeat (Telemetry.Run 0) 2 ++ repeat (Telemetry.Run 2) 4)
       Telemetry.boot)
  = Some 0%nat
  /\ Telemetry.observed_by 2
       (Telemetry.run (repeat (Telemetry.Run 0) 2 ++ repeat (Telemetry.Run 2) 4)
          Telemetry.boot)
     = [ (Telemetry.Vesc_speed_kmh, 1); (Telemetry.Vesc_battery_percentage, 0);
         (Telemetry.Sensor_current_mode, 0); (Telemetry.Sensor_filtered_torque, 0) ].
Proof. split; reflexivity. Qed.

(** The BLE task in the same two situations: it reads one transaction, or
    waits, or gives the cycle up when its 10 ms expire. *)
Lemma ble_task_waits_or_skips :
  Telemetry.observed_by 1
    (Telemetry.run (repeat (Telemetry.Run 0) 2 ++ repeat (Telemetry.Run 1) 20)
       Telemetry.boot) = []
  /\ Telemetry.program
       (nth 1 (Telemetry.tasks
                 (Telemetry.run
                    (repeat (Telemetry.Run 0) 2 ++ [Telemetry.Run 1; Telemetry.Expire 1])
                    Telemetry.boot))
            (Telemetry.task_of []))
     = []
  /\ Telemetry.untorn
       (Telemetry.observed_by 1
          (Telemetry.run
             (repeat (Telemetry.Run 0) 8 ++ repeat (Telemetry.Run 1) 5
              ++ repeat (Telemetry.Run 0) 8 ++ repeat (Telemetry.Run 1) 12)
             Telemetry.boot))
     = true.
Proof. repeat split. Qed.

(** * Further properties *)

(** ** Calibration *)

Lemma sum_of_permutation (l l' : list Z) :
  Permutation l l' -> sum_of l = sum_of l'.
Proof.
  induction 1; rewrite ?sum_of_cons; lia.
Qed.

Section CalibrationOutcomes.

Variable TORQUE_CALIBRATION_SAMPLES : Z.
Variable TORQUE_CALIBRATION_TIMEOUT_MS : Z.
Variable TORQUE_STANDSTILL_DEFAULT : Z.

Local Abbreviation N := TORQUE_CALIBRATION_SAMPLES.
Local Abbreviation taken := (samples_taken TORQUE_CALIBRATION_TIMEOUT_MS).
Local Abbreviation accepted := (accepted_samples N TORQUE_CALIBRATION_TIMEOUT_MS).
Local Abbreviation count := (accepted_count N TORQUE_CALIBRATION_TIMEOUT_MS).
Local Abbreviation calibrate :=
  (calibrate_torque_sensor N TORQUE_CALIBRATION_TIMEOUT_MS TORQUE_STANDSTILL_DEFAULT).

(** The outcome of a run is decided by how many samples were accepted and
    what they add up to. *)
Lemma calibrate_by_count_and_sum hw :
  3995 * N <= LONG_MAX ->
  calibrate false hw
  = if Z.quot N 2 <=? count hw then
      if count hw =? 0 then Undefined
      else Returns (run_ending (wrap_int (Z.quot (sum_of (accepted hw)) (count hw)))
                      Printed_completed)
    else Returns (run_ending TORQUE_STANDSTILL_DEFAULT Printed_failed).
Proof.
  intros Hfit.
  assert (HN : N <= INT_MAX) by (unfold LONG_MAX, INT_MAX in *; lia).
  unfold calibrate_torque_sensor. cbv zeta.
  rewrite (loop_counts _ _ hw HN), (loop_sums _ _ hw Hfit). reflexivity.
Qed.

(** X1: with a sample count of at least 2, every run returns, sets
    [torque_calibration_complete], and leaves a baseline that is the
    default or lies within [100, 3995]. *)
Theorem calibration_always_usable debug hw :
  2 <= N ->
  3995 * N <= LONG_MAX ->
  exists r,
    calibrate debug hw = Returns r
    /\ is_torque_calibration_complete (globals_after r) = true
    /\ (torque_standstill_calibrated (globals_after r) = TORQUE_STANDSTILL_DEFAULT
        \/ 100 <= torque_standstill_calibrated (globals_after r) <= 3995).
Proof.
  intros HN Hfit. destruct debug.
  { eexists. split; [reflexivity|]. split; [reflexivity|left; reflexivity]. }
  destruct (Z_lt_le_dec (count hw) (Z.quot N 2)) as [Hfew|Hhalf].
  - rewrite (calibrate_by_count_and_sum hw Hfit).
    destruct (Z.leb_spec (Z.quot N 2) (count hw)); [lia|].
    eexists. split; [reflexivity|]. split; [reflexivity|left; reflexivity].
  - assert (Hq : 1 <= Z.quot N 2).
    { rewrite Z.quot_div_nonneg by lia. apply Z.div_le_lower_bound; lia. }
    destruct (calibrate_success _ _ TORQUE_STANDSTILL_DEFAULT hw Hfit Hhalf ltac:(lia))
      as [E Hr].
    eexists. split; [exact E|]. split; [reflexivity|right; exact Hr].
Qed.

(** X2: the outcome depends on the accepted samples only, and not on their
    order: two runs whose accepted samples are the same up to order end
    alike, whatever was rejected in between and whenever the time-out
    struck. *)
Theorem calibration_ignores_rejected_and_order hw hw' :
  3995 * N <= LONG_MAX ->
  Permutation (accepted hw) (accepted hw') ->
  calibrate false hw = calibrate false hw'.
Proof.
  intros Hfit HP.
  rewrite !calibrate_by_count_and_sum by exact Hfit.
  unfold accepted_count.
  rewrite (Permutation_length HP), (sum_of_permutation _ _ HP). reflexivity.
Qed.

Lemma sum_of_between (lo hi : Z) (l : list Z) :
  (forall x, In x l -> lo <= x <= hi) ->
  lo * Z.of_nat (List.length l) <= sum_of l <= hi * Z.of_nat (List.length l).
Proof.
  induction l as [|x l IH]; intros H; [cbn; lia|].
  rewrite sum_of_cons. cbn [List.length].
  pose proof (H x (or_introl eq_refl)).
  specialize (IH (fun y Hy => H y (or_intror Hy))). lia.
Qed.

(** X3: on the successful branch the baseline lies between the smallest
    and the largest accepted sample; a sensor that reads [v] throughout
    is calibrated to [v]. *)
Theorem calibration_baseline_bracketed hw lo hi :
  3995 * N <= LONG_MAX ->
  Z.quot N 2 <= count hw ->
  0 < count hw ->
  (forall x, In x (accepted hw) -> lo <= x <= hi) ->
  exists r,
    calibrate false hw = Returns r
    /\ lo <= torque_standstill_calibrated (globals_after r) <= hi.
Proof.
  intros Hfit Hhalf Hpos Hb.
  destruct (calibrate_success _ _ TORQUE_STANDSTILL_DEFAULT hw Hfit Hhalf Hpos)
    as [E _].
  eexists. split; [exact E|]. cbn [run_ending globals_after torque_standstill_calibrated].
  pose proof (sum_of_between lo hi _ Hb) as Hs. fold (count hw) in Hs.
  split.
  - apply Z.div_le_lower_bound; lia.
  - apply Z.div_le_upper_bound; lia.
Qed.

Lemma samples_taken_timeout hw start k : forall i remaining,
  wrap_ulong (millis_at hw (S (i + k)) - start)
    > wrap_ulong TORQUE_CALIBRATION_TIMEOUT_MS ->
  (List.length (taken hw start i remaining) <= k)%nat.
Proof.
  induction k as [|k IH]; intros i remaining Hto.
  - rewrite Nat.add_0_r in Hto. destruct remaining; cbn; [lia|].
    destruct (Z.gtb_spec (wrap_ulong (millis_at hw (S i) - start))
                (wrap_ulong TORQUE_CALIBRATION_TIMEOUT_MS)); [cbn; lia|lia].
  - destruct remaining; cbn; [lia|].
    destruct (_ >? _); cbn; [lia|].
    specialize (IH (S i) remaining).
    rewrite Nat.add_succ_r in Hto. specialize (IH Hto). lia.
Qed.

(** X4: when the time-out strikes before half of the samples were taken
    (at the check of iteration [k], with [k < N / 2]), the run falls back
    to the default, whatever the sensor read. *)
Theorem calibration_early_timeout_falls_back hw k :
  N <= INT_MAX ->
  Z.of_nat k < Z.quot N 2 ->
  wrap_ulong (millis_at hw (S k) - millis_at hw 0)
    > wrap_ulong TORQUE_CALIBRATION_TIMEOUT_MS ->
  calibrate false hw
  = Returns (run_ending TORQUE_STANDSTILL_DEFAULT Printed_failed).
Proof.
  intros HN Hk Hto.
  assert (Hc : count hw <= Z.of_nat k).
  { unfold accepted_count, accepted_samples.
    pose proof (filter_length_le reading_in_range
                  (taken hw (millis_at hw 0) 0%nat (Z.to_nat N))).
    pose proof (samples_taken_timeout hw (millis_at hw 0) k 0%nat (Z.to_nat N) Hto).
    lia. }
  unfold calibrate_torque_sensor, run_ending. cbv zeta.
  rewrite (loop_counts _ _ hw HN).
  destruct (Z.leb_spec (Z.quot N 2) (count hw)); [lia|reflexivity].
Qed.

End CalibrationOutcomes.

(** ** Torque evaluation over several cycles *)

Section CycleProperties.

Variable TORQUE_MAX_BACKWARD : Z.
Variable TORQUE_MAX_FORWARD : Z.
Variable TORQUE_THRESHOLD : Z.
Variable TORQUE_MAX_NM : Float32.float.
Variable update_debug_simulation : SensorGlobals -> SensorGlobals.

Local Abbreviation evaluate :=
  (update_torque TORQUE_MAX_BACKWARD TORQUE_MAX_FORWARD TORQUE_THRESHOLD
     TORQUE_MAX_NM update_debug_simulation).
Local Abbreviation cycles :=
  (update_torque_cycles TORQUE_MAX_BACKWARD TORQUE_MAX_FORWARD TORQUE_THRESHOLD
     TORQUE_MAX_NM update_debug_simulation).

(** On the normal path a cycle reads the two debug flags and the
    calibration and nothing else of the globals, and writes none of
    them. *)
Lemma normal_cycle_reads g g' adc :
  debug_mode g && debug_simulate_torque g = false ->
  debug_mode g' = debug_mode g ->
  debug_simulate_torque g' = debug_simulate_torque g ->
  debug_torque_nm g' = debug_torque_nm g ->
  calibration g' = calibration g ->
  evaluate g' adc = evaluate g adc.
Proof.
  intros Hmode Hd Hs Ht Hc. unfold update_torque.
  rewrite Hd, Hs, Ht, Hc, Hmode. reflexivity.
Qed.

Lemma normal_cycle_writes g adc :
  debug_mode g && debug_simulate_torque g = false ->
  debug_mode (evaluate g adc) = debug_mode g
  /\ debug_simulate_torque (evaluate g adc) = debug_simulate_torque g
  /\ debug_torque_nm (evaluate g adc) = debug_torque_nm g
  /\ calibration (evaluate g adc) = calibration g.
Proof.
  intros Hmode. unfold update_torque. rewrite Hmode. repeat split.
Qed.

Lemma normal_cycles_write readings : forall g,
  debug_mode g && debug_simulate_torque g = false ->
  debug_mode (cycles readings g) = debug_mode g
  /\ debug_simulate_torque (cycles readings g) = debug_simulate_torque g
  /\ debug_torque_nm (cycles readings g) = debug_torque_nm g
  /\ calibration (cycles readings g) = calibration g.
Proof.
  unfold update_torque_cycles.
  induction readings as [|adc readings IH]; intros g Hmode; cbn [fold_left].
  - repeat split.
  - destruct (normal_cycle_writes g adc Hmode) as (Hd & Hs & Ht & Hc).
    destruct (IH (evaluate g adc)) as (Hd' & Hs' & Ht' & Hc').
    + rewrite Hd, Hs. exact Hmode.
    + repeat split; congruence.
Qed.

(** X5: outside the debug simulation the evaluation keeps no memory: after
    any number of cycles the globals are those that the last raw sample
    alone would have given, and the calibration is never touched. *)
Theorem evaluation_keeps_no_memory g readings last :
  debug_mode g && debug_simulate_torque g = false ->
  update_torque_cycles TORQUE_MAX_BACKWARD TORQUE_MAX_FORWARD TORQUE_THRESHOLD
    TORQUE_MAX_NM update_debug_simulation (readings ++ [last]) g
  = update_torque TORQUE_MAX_BACKWARD TORQUE_MAX_FORWARD TORQUE_THRESHOLD
      TORQUE_MAX_NM update_debug_simulation g last
  /\ calibration
       (update_torque_cycles TORQUE_MAX_BACKWARD TORQUE_MAX_FORWARD TORQUE_THRESHOLD
          TORQUE_MAX_NM update_debug_simulation (readings ++ [last]) g)
     = calibration g
  /\ raw_torque_value
       (update_torque_cycles TORQUE_MAX_BACKWARD TORQUE_MAX_FORWARD TORQUE_THRESHOLD
          TORQUE_MAX_NM update_debug_simulation (readings ++ [last]) g)
     = last.
Proof.
  intros Hmode.
  assert (E : cycles (readings ++ [last]) g = evaluate g last).
  { unfold update_torque_cycles. rewrite fold_left_app. cbn [fold_left].
    destruct (normal_cycles_write readings g Hmode) as (Hd & Hs & Ht & Hc).
    apply normal_cycle_reads; assumption. }
  split; [exact E|]. rewrite E.
  destruct (normal_cycle_writes g last Hmode) as (_ & _ & _ & Hc).
  split; [exact Hc|].
  unfold update_torque. rewrite Hmode. reflexivity.
Qed.

End CycleProperties.

(** ** Calibration at startup, then evaluation *)

Section StartupProperties.

Variable TORQUE_CALIBRATION_SAMPLES : Z.
Variable TORQUE_CALIBRATION_TIMEOUT_MS : Z.
Variable TORQUE_STANDSTILL_DEFAULT : Z.
Variable TORQUE_MAX_BACKWARD : Z.
Variable TORQUE_MAX_FORWARD : Z.
Variable TORQUE_THRESHOLD : Z.
Variable TORQUE_MAX_NM : Float32.float.
Variable update_debug_simulation : SensorGlobals -> SensorGlobals.

Local Abbreviation N := TORQUE_CALIBRATION_SAMPLES.
Local Abbreviation accepted := (accepted_samples N TORQUE_CALIBRATION_TIMEOUT_MS).
Local Abbreviation count := (accepted_count N TORQUE_CALIBRATION_TIMEOUT_MS).
Local Abbreviation evaluate :=
  (update_torque TORQUE_MAX_BACKWARD TORQUE_MAX_FORWARD TORQUE_THRESHOLD
     TORQUE_MAX_NM update_debug_simulation).

(** X16: a sensor calibrated at rest reports no torque at rest.  When the
    accepted samples of the calibration all read [v] (and there are enough
    of them), the calibration returns, and every later raw sample closer
    to [v] than [TORQUE_THRESHOLD] is evaluated to a torque of exactly
    [0.0]. *)
Theorem calibrated_at_rest_reports_zero hw g v adc :
  debug_mode g = false ->
  3995 * N <= LONG_MAX ->
  Z.quot N 2 <= count hw ->
  0 < count hw ->
  (forall x, In x (accepted hw) -> x = v) ->
  TORQUE_THRESHOLD <= INT_MAX ->
  v - TORQUE_THRESHOLD < adc < v + TORQUE_THRESHOLD ->
  exists g',
    calibrate_globals N TORQUE_CALIBRATION_TIMEOUT_MS TORQUE_STANDSTILL_DEFAULT hw g
    = Returns g'
    /\ torque_standstill_calibrated (calibration g') = v
    /\ crank_torque_nm (evaluate g' adc) = Float32.zero
    /\ filtered_torque (evaluate g' adc) = Float32.zero.
Proof.
  intros Hdebug Hfit Hhalf Hpos Hall HT Hr.
  destruct (calibrate_success _ _ TORQUE_STANDSTILL_DEFAULT hw Hfit Hhalf Hpos)
    as [E Hrange].
  assert (Hv : sum_of (accepted hw) / count hw = v).
  { assert (Hb : forall x, In x (accepted hw) -> v <= x <= v)
      by (intros x Hx; rewrite (Hall x Hx); lia).
    pose proof (sum_of_between v v _ Hb) as Hs. fold (count hw) in Hs.
    apply Z.le_antisymm.
    - apply Z.div_le_upper_bound; lia.
    - apply Z.div_le_lower_bound; lia. }
  unfold calibrate_globals. rewrite Hdebug, E, Hv.
  eexists. split; [reflexivity|].
  cbn [run_ending globals_after calibration torque_standstill_calibrated].
  split; [reflexivity|].
  rewrite filtered_is_crank.
  match goal with
  | |- ?c = _ /\ _ => assert (Ec : c = Float32.zero); [|split; exact Ec]
  end.
  unfold update_torque. cbn [debug_mode andb]. cbv zeta.
  cbn [crank_torque_nm calibration torque_standstill_calibrated].
  rewrite (wrap_int_small (adc - v))
    by (unfold in_int, INT_MIN, INT_MAX in *; lia).
  rewrite int_abs_small by (unfold INT_MIN, INT_MAX in *; lia).
  destruct (Z.ltb_spec (Z.abs (adc - v)) TORQUE_THRESHOLD); [|lia].
  apply clamp_zero.
Qed.

End StartupProperties.

(** ** The VESC bridge *)

Section BridgeProperties.
Import Bridge.

Lemma arrived_succ arrival k n :
  arrived arrival k (S n) = arrival k ++ arrived arrival (S k) n.
Proof. reflexivity. Qed.

Lemma arrived_app arrival k n m :
  arrived arrival k (n + m) = arrived arrival k n ++ arrived arrival (k + n) m.
Proof.
  revert k. induction n as [|n IH]; intros k.
  - cbn. rewrite Nat.add_0_r. reflexivity.
  - cbn [Nat.add]. rewrite !arrived_succ, IH, app_assoc.
    rewrite Nat.add_succ_r. reflexivity.
Qed.

(** What one run of the forwarding loop does, [F] being the bytes it
    forwards. *)
Lemma forward_loop_spec {A : Type} (put : byte -> A) arrival millis room :
  forall t : Transfer A,
  exists F : list byte,
    sink (forward_loop put arrival millis room t) = sink t ++ map put F
    /\ F ++ source (forward_loop put arrival millis room t)
       = source t ++ arrived arrival (checks t) (S (List.length F))
    /\ bytes_forwarded (forward_loop put arrival millis room t)
       = bytes_forwarded t + Z.of_nat (List.length F)
    /\ (List.length F <= room)%nat
    /\ ((List.length F < room)%nat ->
        source (forward_loop put arrival millis room t) = [])
    /\ checks (forward_loop put arrival millis room t)
       = (checks t + S (List.length F))%nat
    /\ clock_calls (forward_loop put arrival millis room t)
       = (clock_calls t + List.length F)%nat
    /\ (F = [] -> stamp (forward_loop put arrival millis room t) = stamp t)
    /\ (F <> [] ->
        stamp (forward_loop put arrival millis room t)
        = millis (clock_calls t + List.length F - 1)%nat).
Proof.
  induction room as [|room IH]; intros t.
  - exists []. cbn [forward_loop].
    destruct (source t ++ arrival (checks t)) as [|b rest] eqn:E;
      cbn [sink source bytes_forwarded checks clock_calls stamp map List.length app];
      rewrite arrived_succ; cbn [arrived seq map List.concat];
      rewrite ?app_nil_r, ?E; repeat split; try lia; try congruence.
  - cbn [forward_loop].
    destruct (source t ++ arrival (checks t)) as [|b rest] eqn:E.
    + exists [].
      cbn [sink source bytes_forwarded checks clock_calls stamp map List.length app].
      rewrite arrived_succ. cbn [arrived seq map List.concat].
      rewrite ?app_nil_r, ?E. repeat split; try lia; try congruence.
    + destruct (IH {| source := rest; sink := sink t ++ [put b];
                      stamp := millis (clock_calls t); checks := S (checks t);
                      clock_calls := S (clock_calls t);
                      bytes_forwarded := bytes_forwarded t + 1 |})
        as (F & Hsink & Hsrc & Hn & Hle & Hdrain & Hchk & Hclk & Hs0 & Hs1).
      cbn [sink source bytes_forwarded checks clock_calls stamp] in *.
      exists (b :: F). cbn [map List.length app].
      repeat split.
      * rewrite Hsink, <- app_assoc. reflexivity.
      * rewrite Hsrc, (arrived_succ arrival (checks t)), app_assoc, E. reflexivity.
      * lia.
      * lia.
      * intros H. apply Hdrain. lia.
      * lia.
      * lia.
      * discriminate.
      * intros _. destruct F as [|b' F'].
        -- rewrite Hs0 by reflexivity. cbn [List.length]. f_equal. lia.
        -- rewrite Hs1 by discriminate. f_equal. cbn [List.length]. lia.
Qed.


(** What one call of [forwardUSBToVESC] does, [F] being the bytes it
    forwards. *)
Lemma forwardUSBToVESC_spec w s :
  exists F : list byte,
    vesc_tx (fst (forwardUSBToVESC w s)) = vesc_tx s ++ F
    /\ F ++ usb_rx (fst (forwardUSBToVESC w s))
       = usb_rx s ++ arrived (usb_arrival w) (usb_checks s) (S (List.length F))
    /\ snd (forwardUSBToVESC w s) = Z.of_nat (List.length F)
    /\ (List.length F <= 512)%nat
    /\ ((List.length F < 512)%nat -> usb_rx (fst (forwardUSBToVESC w s)) = [])
    /\ usb_checks (fst (forwardUSBToVESC w s))
       = (usb_checks s + S (List.length F))%nat
    /\ millis_calls (fst (forwardUSBToVESC w s))
       = (millis_calls s + List.length F)%nat
    /\ bytes_forwarded_usb_to_vesc (fst (forwardUSBToVESC w s))
       = (if (0 <? Z.of_nat (List.length F))
          then wrap_ulong (bytes_forwarded_usb_to_vesc s + Z.of_nat (List.length F))
          else bytes_forwarded_usb_to_vesc s)
    /\ (F = [] -> last_usb_activity (fst (forwardUSBToVESC w s))
                  = last_usb_activity s)
    /\ (F <> [] ->
        last_usb_activity (fst (forwardUSBToVESC w s))
        = millis_answer w (millis_calls s + List.length F - 1)%nat).
Proof.
  unfold forwardUSBToVESC. cbv zeta.
  cbn [fst snd vesc_tx usb_rx usb_checks millis_calls
       bytes_forwarded_usb_to_vesc last_usb_activity].
  destruct (forward_loop_spec (fun b => b) (usb_arrival w) (millis_answer w)
              (Z.to_nat BUFFER_SIZE)
              {| source := usb_rx s; sink := vesc_tx s;
                 stamp := last_usb_activity s; checks := usb_checks s;
                 clock_calls := millis_calls s; bytes_forwarded := 0 |})
    as (F & Hsink & Hsrc & Hn & Hle & Hdrain & Hchk & Hclk & Hs0 & Hs1).
  cbn [sink source bytes_forwarded checks clock_calls stamp] in *.
  change (Z.to_nat BUFFER_SIZE) with 512%nat in *.
  exists F. rewrite map_id in Hsink. rewrite Hn, Z.add_0_l.
  replace (Z.of_nat (List.length F) >? 0) with (0 <? Z.of_nat (List.length F))
    by (rewrite Z.gtb_ltb; reflexivity).
  repeat split; assumption.
Qed.

(** The same for [forwardVESCToUSB]. *)
Lemma forwardVESCToUSB_spec w s :
  exists G : list byte,
    usb_tx (fst (forwardVESCToUSB w s)) = usb_tx s ++ map Forwarded G
    /\ G ++ vesc_rx (fst (forwardVESCToUSB w s))
       = vesc_rx s ++ arrived (vesc_arrival w) (vesc_checks s) (S (List.length G))
    /\ snd (forwardVESCToUSB w s) = Z.of_nat (List.length G)
    /\ (List.length G <= 512)%nat
    /\ ((List.length G < 512)%nat -> vesc_rx (fst (forwardVESCToUSB w s)) = [])
    /\ vesc_checks (fst (forwardVESCToUSB w s))
       = (vesc_checks s + S (List.length G))%nat
    /\ millis_calls (fst (forwardVESCToUSB w s))
       = (millis_calls s + List.length G)%nat
    /\ bytes_forwarded_vesc_to_usb (fst (forwardVESCToUSB w s))
       = (if (0 <? Z.of_nat (List.length G))
          then wrap_ulong (bytes_forwarded_vesc_to_usb s + Z.of_nat (List.length G))
          else bytes_forwarded_vesc_to_usb s)
    /\ (G = [] -> last_vesc_activity (fst (forwardVESCToUSB w s))
                  = last_vesc_activity s)
    /\ (G <> [] ->
        last_vesc_activity (fst (forwardVESCToUSB w s))
        = millis_answer w (millis_calls s + List.length G - 1)%nat).
Proof.
  unfold forwardVESCToUSB. cbv zeta.
  cbn [fst snd usb_tx vesc_rx vesc_checks millis_calls
       bytes_forwarded_vesc_to_usb last_vesc_activity].
  destruct (forward_loop_spec Forwarded (vesc_arrival w) (millis_answer w)
              (Z.to_nat BUFFER_SIZE)
              {| source := vesc_rx s; sink := usb_tx s;
                 stamp := last_vesc_activity s; checks := vesc_checks s;
                 clock_calls := millis_calls s; bytes_forwarded := 0 |})
    as (G & Hsink & Hsrc & Hn & Hle & Hdrain & Hchk & Hclk & Hs0 & Hs1).
  cbn [sink source bytes_forwarded checks clock_calls stamp] in *.
  change (Z.to_nat BUFFER_SIZE) with 512%nat in *.
  exists G. rewrite Hn, Z.add_0_l.
  replace (Z.of_nat (List.length G) >? 0) with (0 <? Z.of_nat (List.length G))
    by (rewrite Z.gtb_ltb; reflexivity).
  repeat split; assumption.
Qed.

Lemma forwarded_bytes_app out1 out2 :
  forwarded_bytes (out1 ++ out2) = forwarded_bytes out1 ++ forwarded_bytes out2.
Proof.
  induction out1 as [|[b|? ? ? ? ? ?] out1 IH]; cbn [forwarded_bytes app].
  - reflexivity.
  - rewrite IH. reflexivity.
  - exact IH.
Qed.

Lemma forwarded_bytes_map G : forwarded_bytes (map Forwarded G) = G.
Proof.
  induction G as [|b G IH]; cbn [forwarded_bytes map]; [|rewrite IH]; reflexivity.
Qed.

(** X6: [forwardUSBToVESC] writes to the VESC the bytes it takes from the
    head of the USB receive buffer, in their order, at most 512 of them;
    the bytes written followed by the bytes left are what was buffered
    followed by what arrived meanwhile, so that nothing is lost, doubled or
    reordered; it returns their number, and fewer than 512 only when it
    left the buffer empty.  [forwardVESCToUSB] does the same the other way
    round. *)
Theorem forwarding_keeps_order w s :
  (exists F,
      vesc_tx (fst (forwardUSBToVESC w s)) = vesc_tx s ++ F
      /\ F ++ usb_rx (fst (forwardUSBToVESC w s))
         = usb_rx s ++ arrived (usb_arrival w) (usb_checks s) (S (List.length F))
      /\ snd (forwardUSBToVESC w s) = Z.of_nat (List.length F)
      /\ 0 <= snd (forwardUSBToVESC w s) <= BUFFER_SIZE
      /\ (snd (forwardUSBToVESC w s) < BUFFER_SIZE ->
          usb_rx (fst (forwardUSBToVESC w s)) = []))
  /\ (exists G,
        usb_tx (fst (forwardVESCToUSB w s)) = usb_tx s ++ map Forwarded G
        /\ G ++ vesc_rx (fst (forwardVESCToUSB w s))
           = vesc_rx s ++ arrived (vesc_arrival w) (vesc_checks s) (S (List.length G))
        /\ snd (forwardVESCToUSB w s) = Z.of_nat (List.length G)
        /\ 0 <= snd (forwardVESCToUSB w s) <= BUFFER_SIZE
        /\ (snd (forwardVESCToUSB w s) < BUFFER_SIZE ->
            vesc_rx (fst (forwardVESCToUSB w s)) = [])).
Proof.
  split.
  - destruct (forwardUSBToVESC_spec w s)
      as (F & Htx & Hrx & Hn & Hle & Hdrain & _).
    exists F. rewrite Hn. unfold BUFFER_SIZE.
    repeat split; try assumption; try lia.
    intros H. apply Hdrain. lia.
  - destruct (forwardVESCToUSB_spec w s)
      as (G & Htx & Hrx & Hn & Hle & Hdrain & _).
    exists G. rewrite Hn. unfold BUFFER_SIZE.
    repeat split; try assumption; try lia.
    intros H. apply Hdrain. lia.
Qed.


(** What one call of [runVescBridge] does to the two data paths and their
    counters, [F] and [G] being the bytes forwarded to the VESC and to the
    USB side. *)
Lemma runVescBridge_spec w s :
  exists F G : list byte,
    (vesc_tx (runVescBridge w s) = vesc_tx s ++ F
     /\ F ++ usb_rx (runVescBridge w s)
        = usb_rx s ++ arrived (usb_arrival w) (usb_checks s) (S (List.length F))
     /\ (List.length F <= 512)%nat
     /\ ((List.length F < 512)%nat -> usb_rx (runVescBridge w s) = [])
     /\ usb_checks (runVescBridge w s) = (usb_checks s + S (List.length F))%nat
     /\ bytes_forwarded_usb_to_vesc (runVescBridge w s)
        = (if (0 <? Z.of_nat (List.length F))
           then wrap_ulong (bytes_forwarded_usb_to_vesc s + Z.of_nat (List.length F))
           else bytes_forwarded_usb_to_vesc s))
    /\ (forwarded_bytes (usb_tx (runVescBridge w s))
        = forwarded_bytes (usb_tx s) ++ G
        /\ G ++ vesc_rx (runVescBridge w s)
           = vesc_rx s ++ arrived (vesc_arrival w) (vesc_checks s) (S (List.length G))
        /\ (List.length G <= 512)%nat
        /\ ((List.length G < 512)%nat -> vesc_rx (runVescBridge w s) = [])
        /\ vesc_checks (runVescBridge w s) = (vesc_checks s + S (List.length G))%nat
        /\ bytes_forwarded_vesc_to_usb (runVescBridge w s)
           = (if (0 <? Z.of_nat (List.length G))
              then wrap_ulong (bytes_forwarded_vesc_to_usb s + Z.of_nat (List.length G))
              else bytes_forwarded_vesc_to_usb s)).
Proof.
  unfold runVescBridge.
  destruct (forwardUSBToVESC_spec w s)
    as (F & Htx & Hrx & _ & Hle & Hdrain & Hchk & _ & Hcnt & _).
  assert (Hu : usb_tx (fst (forwardUSBToVESC w s)) = usb_tx s
               /\ vesc_rx (fst (forwardUSBToVESC w s)) = vesc_rx s
               /\ vesc_checks (fst (forwardUSBToVESC w s)) = vesc_checks s
               /\ bytes_forwarded_vesc_to_usb (fst (forwardUSBToVESC w s))
                  = bytes_forwarded_vesc_to_usb s)
    by (repeat split).
  destruct Hu as (Hu1 & Hu2 & Hu3 & Hu4).
  destruct (forwardUSBToVESC w s) as [s1 n1]. cbn [fst snd] in *.
  destruct (forwardVESCToUSB_spec w s1)
    as (G & Gtx & Grx & _ & Gle & Gdrain & Gchk & _ & Gcnt & _).
  assert (Hv : vesc_tx (fst (forwardVESCToUSB w s1)) = vesc_tx s1
               /\ usb_rx (fst (forwardVESCToUSB w s1)) = usb_rx s1
               /\ usb_checks (fst (forwardVESCToUSB w s1)) = usb_checks s1
               /\ bytes_forwarded_usb_to_vesc (fst (forwardVESCToUSB w s1))
                  = bytes_forwarded_usb_to_vesc s1)
    by (repeat split).
  destruct Hv as (Hv1 & Hv2 & Hv3 & Hv4).
  destruct (forwardVESCToUSB w s1) as [s2 n2]. cbn [fst snd] in *.
  exists F, G.
  unfold printBridgeStats, updateBridgeStatusLED. cbv zeta.
  cbn [vesc_tx usb_rx usb_checks bytes_forwarded_usb_to_vesc usb_tx vesc_rx
       vesc_checks bytes_forwarded_vesc_to_usb millis_calls last_usb_activity
       last_vesc_activity last_stats].
  split.
  - rewrite Hv1, Hv2, Hv3, Hv4. repeat split; assumption.
  - rewrite <- Hu1, <- Hu2, <- Hu3, <- Hu4.
    repeat split; try assumption.
    match goal with
    | |- forwarded_bytes (if ?c then _ else _) = _ => destruct c
    end.
    + rewrite forwarded_bytes_app, Gtx, forwarded_bytes_app, forwarded_bytes_map.
      cbn [forwarded_bytes]. rewrite app_nil_r. reflexivity.
    + rewrite Gtx, forwarded_bytes_app, forwarded_bytes_map. reflexivity.
Qed.

Lemma bridge_cycles_succ w n s :
  bridge_cycles w (S n) s = runVescBridge w (bridge_cycles w n s).
Proof. reflexivity. Qed.

Lemma wrap_ulong_add_wrap a b :
  wrap_ulong (wrap_ulong a + b) = wrap_ulong (a + b).
Proof. unfold wrap_ulong. apply Zplus_mod_idemp_l. Qed.

Lemma wrap_ulong_small a : 0 <= a < 4294967296 -> wrap_ulong a = a.
Proof. unfold wrap_ulong. apply Z.mod_small. Qed.

(** The same after any number of cycles, [ku] and [kv] being the numbers of
    calls of [available()] on either side. *)
Lemma bridge_cycles_spec w n s :
  exists (F G : list byte) (ku kv : nat),
    (vesc_tx (bridge_cycles w n s) = vesc_tx s ++ F
     /\ F ++ usb_rx (bridge_cycles w n s)
        = usb_rx s ++ arrived (usb_arrival w) (usb_checks s) ku
     /\ usb_checks (bridge_cycles w n s) = (usb_checks s + ku)%nat
     /\ (0 <= bytes_forwarded_usb_to_vesc s < 4294967296 ->
         bytes_forwarded_usb_to_vesc (bridge_cycles w n s)
         = wrap_ulong (bytes_forwarded_usb_to_vesc s + Z.of_nat (List.length F))))
    /\ (forwarded_bytes (usb_tx (bridge_cycles w n s))
        = forwarded_bytes (usb_tx s) ++ G
        /\ G ++ vesc_rx (bridge_cycles w n s)
           = vesc_rx s ++ arrived (vesc_arrival w) (vesc_checks s) kv
        /\ vesc_checks (bridge_cycles w n s) = (vesc_checks s + kv)%nat
        /\ (0 <= bytes_forwarded_vesc_to_usb s < 4294967296 ->
            bytes_forwarded_vesc_to_usb (bridge_cycles w n s)
            = wrap_ulong (bytes_forwarded_vesc_to_usb s + Z.of_nat (List.length G)))).
Proof.
  induction n as [|n IH].
  - exists [], [], 0%nat, 0%nat. cbn [bridge_cycles Nat.iter arrived seq map List.concat List.length].
    rewrite !app_nil_r, !Nat.add_0_r, !Z.add_0_r.
    repeat split; intros; symmetry; apply wrap_ulong_small; assumption.
  - destruct IH as (F & G & ku & kv & (F1 & F2 & F3 & F4) & (G1 & G2 & G3 & G4)).
    rewrite bridge_cycles_succ.
    destruct (runVescBridge_spec w (bridge_cycles w n s))
      as (F' & G' & (A1 & A2 & _ & _ & A3 & A4) & (B1 & B2 & _ & _ & B3 & B4)).
    exists (F ++ F'), (G ++ G'), (ku + S (List.length F'))%nat,
      (kv + S (List.length G'))%nat.
    split; repeat split.
    + rewrite A1, F1, app_assoc. reflexivity.
    + rewrite <- app_assoc, A2, app_assoc, F2, <- app_assoc, F3, arrived_app.
      reflexivity.
    + rewrite A3, F3. lia.
    + intros H. rewrite A4, (F4 H), length_app, Nat2Z.inj_add.
      destruct (0 <? Z.of_nat (List.length F')) eqn:E.
      * rewrite wrap_ulong_add_wrap. f_equal. lia.
      * apply Z.ltb_ge in E. f_equal. lia.
    + rewrite B1, G1, app_assoc. reflexivity.
    + rewrite <- app_assoc, B2, app_assoc, G2, <- app_assoc, G3, arrived_app.
      reflexivity.
    + rewrite B3, G3. lia.
    + intros H. rewrite B4, (G4 H), length_app, Nat2Z.inj_add.
      destruct (0 <? Z.of_nat (List.length G')) eqn:E.
      * rewrite wrap_ulong_add_wrap. f_equal. lia.
      * apply Z.ltb_ge in E. f_equal. lia.
Qed.

(** X7: over any number of bridge cycles no byte is lost, doubled or
    reordered in either direction: what has been written to the VESC,
    followed by what still waits in the USB receive buffer, is what the
    buffer held at first followed by all that came in at the calls of
    [available()]; likewise for the bytes written to the USB side, the
    statistics blocks printed in between set aside. *)
Theorem bridge_cycles_lossless w n s :
  exists (F G : list byte) (ku kv : nat),
    vesc_tx (bridge_cycles w n s) = vesc_tx s ++ F
    /\ F ++ usb_rx (bridge_cycles w n s)
       = usb_rx s ++ arrived (usb_arrival w) (usb_checks s) ku
    /\ usb_checks (bridge_cycles w n s) = (usb_checks s + ku)%nat
    /\ forwarded_bytes (usb_tx (bridge_cycles w n s))
       = forwarded_bytes (usb_tx s) ++ G
    /\ G ++ vesc_rx (bridge_cycles w n s)
       = vesc_rx s ++ arrived (vesc_arrival w) (vesc_checks s) kv
    /\ vesc_checks (bridge_cycles w n s) = (vesc_checks s + kv)%nat.
Proof.
  destruct (bridge_cycles_spec w n s)
    as (F & G & ku & kv & (F1 & F2 & F3 & _) & (G1 & G2 & G3 & _)).
  exists F, G, ku, kv. repeat split; assumption.
Qed.

(** X8: the two counters shown in the statistics count the bytes actually
    forwarded, modulo 2^32: after any number of cycles each has grown by
    the number of bytes written to the other side since. *)
Theorem bridge_counters_count_forwarded w n s :
  0 <= bytes_forwarded_usb_to_vesc s < 4294967296 ->
  0 <= bytes_forwarded_vesc_to_usb s < 4294967296 ->
  bytes_forwarded_usb_to_vesc (bridge_cycles w n s)
  = wrap_ulong (bytes_forwarded_usb_to_vesc s
                + (Z.of_nat (List.length (vesc_tx (bridge_cycles w n s)))
                   - Z.of_nat (List.length (vesc_tx s))))
  /\ bytes_forwarded_vesc_to_usb (bridge_cycles w n s)
     = wrap_ulong (bytes_forwarded_vesc_to_usb s
                   + (Z.of_nat (List.length
                                  (forwarded_bytes (usb_tx (bridge_cycles w n s))))
                      - Z.of_nat (List.length (forwarded_bytes (usb_tx s))))).
Proof.
  intros Hu Hv.
  destruct (bridge_cycles_spec w n s)
    as (F & G & ku & kv & (F1 & _ & _ & F4) & (G1 & _ & _ & G4)).
  rewrite F1, G1, !length_app, !Nat2Z.inj_add, (F4 Hu), (G4 Hv).
  split; f_equal; lia.
Qed.


Lemma arrived_nil arrival k n :
  (forall i, arrival i = []) -> arrived arrival k n = [].
Proof.
  intros H. revert k. induction n as [|n IH]; intros k.
  - reflexivity.
  - rewrite arrived_succ, H, IH. reflexivity.
Qed.

(** A run of the loop that may take 512 bytes and stops early only on an
    empty buffer takes the first 512. *)
Lemma take_512 (F pending left : list byte) :
  F ++ left = pending ->
  (List.length F <= 512)%nat ->
  ((List.length F < 512)%nat -> left = []) ->
  F = firstn 512 pending /\ left = skipn 512 pending.
Proof.
  intros E Hle Hdrain. subst pending.
  destruct (Nat.eq_dec (List.length F) 512) as [H|H].
  - rewrite <- H, firstn_app, skipn_app, Nat.sub_diag, firstn_all, skipn_all.
    cbn [firstn skipn app]. rewrite app_nil_r. split; reflexivity.
  - rewrite (Hdrain ltac:(lia)), app_nil_r.
    rewrite firstn_all2, skipn_all2 by lia. split; reflexivity.
Qed.

Lemma firstn_add_skipn {A : Type} (a b : nat) (l : list A) :
  firstn (a + b) l = firstn a l ++ firstn b (skipn a l).
Proof.
  revert l. induction a as [|a IH]; intros [|x l]; cbn [Nat.add firstn skipn app].
  - reflexivity.
  - reflexivity.
  - rewrite firstn_nil. reflexivity.
  - rewrite IH. reflexivity.
Qed.

(** X9: while nothing comes in on a side, each cycle moves the next 512
    bytes of what waits there, so that after [n] cycles exactly the first
    [512 * n] bytes of the backlog have been written to the other side,
    in order, and the rest still waits. *)
Theorem bridge_drains_backlog w n s :
  ((forall k, usb_arrival w k = []) ->
   vesc_tx (bridge_cycles w n s) = vesc_tx s ++ firstn (512 * n) (usb_rx s)
   /\ usb_rx (bridge_cycles w n s) = skipn (512 * n) (usb_rx s))
  /\ ((forall k, vesc_arrival w k = []) ->
      forwarded_bytes (usb_tx (bridge_cycles w n s))
      = forwarded_bytes (usb_tx s) ++ firstn (512 * n) (vesc_rx s)
      /\ vesc_rx (bridge_cycles w n s) = skipn (512 * n) (vesc_rx s)).
Proof.
  split; intros Hquiet.
  - induction n as [|n IH].
    + cbn [bridge_cycles Nat.iter]. rewrite Nat.mul_0_r. cbn [firstn skipn].
      rewrite app_nil_r. split; reflexivity.
    + destruct IH as [IH1 IH2]. rewrite bridge_cycles_succ.
      destruct (runVescBridge_spec w (bridge_cycles w n s))
        as (F & G & (A1 & A2 & Hle & Hdrain & _) & _).
      rewrite (arrived_nil _ _ _ Hquiet), app_nil_r in A2.
      destruct (take_512 _ _ _ A2 Hle Hdrain) as [HF Hleft].
      replace (512 * S n)%nat with (512 * n + 512)%nat by lia.
      rewrite A1, IH1, Hleft, HF, IH2, firstn_add_skipn, skipn_skipn, <- app_assoc.
      split; [reflexivity|]. f_equal. lia.
  - induction n as [|n IH].
    + cbn [bridge_cycles Nat.iter]. rewrite Nat.mul_0_r. cbn [firstn skipn].
      rewrite app_nil_r. split; reflexivity.
    + destruct IH as [IH1 IH2]. rewrite bridge_cycles_succ.
      destruct (runVescBridge_spec w (bridge_cycles w n s))
        as (F & G & _ & (B1 & B2 & Hle & Hdrain & _)).
      rewrite (arrived_nil _ _ _ Hquiet), app_nil_r in B2.
      destruct (take_512 _ _ _ B2 Hle Hdrain) as [HG Hleft].
      replace (512 * S n)%nat with (512 * n + 512)%nat by lia.
      rewrite B1, IH1, Hleft, HG, IH2, firstn_add_skipn, skipn_skipn, <- app_assoc.
      split; [reflexivity|]. f_equal. lia.
Qed.

(** X10: the statistics go out on the serial line that carries the VESC
    data: in a cycle that finds the clock 30 s or more past the last
    statistics, the output to the USB side is the bytes forwarded from the
    VESC followed by a statistics block, whatever the traffic. *)
Theorem statistics_enter_the_data_stream w s :
  (forall k, wrap_ulong (millis_answer w k - last_stats s) >= 30000) ->
  exists (G : list byte) (uptime_s usb_to_vesc vesc_to_usb usb_ago vesc_ago : Z)
         (active : bool),
    usb_tx (runVescBridge w s)
    = usb_tx s ++ map Forwarded G
      ++ [Statistics uptime_s usb_to_vesc vesc_to_usb usb_ago vesc_ago active]
    /\ G ++ vesc_rx (runVescBridge w s)
       = vesc_rx s ++ arrived (vesc_arrival w) (vesc_checks s) (S (List.length G)).
Proof.
  intros Hdue. unfold runVescBridge.
  assert (Hu : usb_tx (fst (forwardUSBToVESC w s)) = usb_tx s
               /\ vesc_rx (fst (forwardUSBToVESC w s)) = vesc_rx s
               /\ vesc_checks (fst (forwardUSBToVESC w s)) = vesc_checks s
               /\ last_stats (fst (forwardUSBToVESC w s)) = last_stats s)
    by (repeat split).
  destruct Hu as (Hu1 & Hu2 & Hu3 & Hu4).
  destruct (forwardUSBToVESC w s) as [s1 n1]. cbn [fst snd] in *.
  destruct (forwardVESCToUSB_spec w s1) as (G & Gtx & Grx & _).
  assert (Hv : last_stats (fst (forwardVESCToUSB w s1)) = last_stats s1)
    by reflexivity.
  destruct (forwardVESCToUSB w s1) as [s2 n2]. cbn [fst snd] in *.
  unfold printBridgeStats, updateBridgeStatusLED. cbv zeta.
  cbn [vesc_tx usb_rx usb_checks bytes_forwarded_usb_to_vesc usb_tx vesc_rx
       vesc_checks bytes_forwarded_vesc_to_usb millis_calls last_usb_activity
       last_vesc_activity last_stats].
  rewrite Hv, Hu4.
  set (now := millis_answer w (S (millis_calls s2))).
  assert (Hnow : wrap_ulong (now - last_stats s) >= 30000) by apply Hdue.
  assert (E : (wrap_ulong (now - last_stats s)
               >=? (if (wrap_ulong (now - last_usb_activity s2) <? 5000)
                       || (wrap_ulong (now - last_vesc_activity s2) <? 5000)
                    then 5000 else 30000)) = true).
  { rewrite Z.geb_leb. apply Z.leb_le.
    destruct ((wrap_ulong (now - last_usb_activity s2) <? 5000)
              || (wrap_ulong (now - last_vesc_activity s2) <? 5000)); lia. }
  rewrite E. rewrite Gtx, Hu1, <- app_assoc, <- Hu2, <- Hu3.
  eexists G, _, _, _, _, _, _. split; [reflexivity | exact Grx].
Qed.

End BridgeProperties.

(** ** Commands over BLE *)

Lemma bytes_eqb_eq a b : bytes_eqb a b = true <-> a = b.
Proof.
  revert b. induction a as [|x a IH]; intros [|y b]; cbn [bytes_eqb];
    try (split; [discriminate | discriminate]); try (split; reflexivity).
  rewrite andb_true_iff, IH. split.
  - intros [H1 H2]. apply byte_dec_bl in H1. congruence.
  - intros H. injection H as -> ->. split; [apply byte_dec_lb|]; reflexivity.
Qed.

Lemma bytes_eqb_neq a b : bytes_eqb a b = false <-> a <> b.
Proof.
  rewrite <- bytes_eqb_eq. destruct (bytes_eqb a b); split; congruence.
Qed.

Section CommandProperties.

Variable NUM_ACTIVE_PROFILES : Z.
Variable profile_name : Z -> list byte.

Local Abbreviation stop_loop := (emergency_stop_loop profile_name).
Local Abbreviation onWrite := (Command_onWrite NUM_ACTIVE_PROFILES profile_name).

Lemma emergency_stop_loop_found turns :
  forall i0 i,
    i0 <= i < i0 + Z.of_nat turns ->
    profile_name i = No_Assist ->
    (forall j, i0 <= j < i -> profile_name j <> No_Assist) ->
    stop_loop turns i0
    = [ Command_changeAssistMode i;
        Command_addLogMessage "BLE Emergency stop activated"%string [] ].
Proof.
  induction turns as [|turns IH]; intros i0 i Hi Hname Hfirst.
  - lia.
  - cbn [emergency_stop_loop].
    destruct (bytes_eqb (profile_name i0) No_Assist) eqn:E.
    + apply bytes_eqb_eq in E.
      destruct (Z.eq_dec i i0) as [->|Hne]; [reflexivity|].
      exfalso. apply (Hfirst i0); [lia | exact E].
    + apply bytes_eqb_neq in E.
      assert (i <> i0) by congruence.
      apply IH; [lia | exact Hname |].
      intros j Hj. apply Hfirst. lia.
Qed.

Lemma emergency_stop_loop_none turns :
  forall i0,
    (forall j, i0 <= j < i0 + Z.of_nat turns -> profile_name j <> No_Assist) ->
    stop_loop turns i0 = [].
Proof.
  induction turns as [|turns IH]; intros i0 Hnone.
  - reflexivity.
  - cbn [emergency_stop_loop].
    destruct (bytes_eqb (profile_name i0) No_Assist) eqn:E.
    + apply bytes_eqb_eq in E. exfalso. apply (Hnone i0); [lia | exact E].
    + apply IH. intros j Hj. apply Hnone. lia.
Qed.

Lemma emergency_stop_loop_calls turns :
  forall i0 i,
    In (Command_changeAssistMode i) (stop_loop turns i0) ->
    i0 <= i < i0 + Z.of_nat turns /\ profile_name i = No_Assist.
Proof.
  induction turns as [|turns IH]; intros i0 i Hin.
  - destruct Hin.
  - cbn [emergency_stop_loop] in Hin.
    destruct (bytes_eqb (profile_name i0) No_Assist) eqn:E.
    + apply bytes_eqb_eq in E.
      destruct Hin as [H|[H|[]]]; [|discriminate H].
      injection H as <-. split; [lia | exact E].
    + apply IH in Hin. destruct Hin as [Hi Hn]. split; [lia | exact Hn].
Qed.

Lemma c_str_nonempty value : c_str value <> [] -> value <> [].
Proof. destruct value; [intros H; exact H | discriminate]. Qed.

Lemma onWrite_emergency_stop value :
  c_str value = EMERGENCY_STOP ->
  onWrite value
  = Command_Serial_println "BLE: Command received: "%string EMERGENCY_STOP
    :: stop_loop (Z.to_nat NUM_ACTIVE_PROFILES) 0.
Proof.
  intros E. unfold Command_onWrite.
  destruct value as [|b rest]; [discriminate E|].
  cbv zeta. rewrite E. reflexivity.
Qed.

(** X11: a payload that reads [EMERGENCY_STOP] up to its first NUL byte
    makes the handler switch to the first active profile named
    [No Assist], once, and log it; it does nothing else. *)
Theorem emergency_stop_switches_to_first_no_assist value i :
  c_str value = EMERGENCY_STOP ->
  0 <= i < NUM_ACTIVE_PROFILES ->
  profile_name i = No_Assist ->
  (forall j, 0 <= j < i -> profile_name j <> No_Assist) ->
  onWrite value
  = [ Command_Serial_println "BLE: Command received: "%string EMERGENCY_STOP;
      Command_changeAssistMode i;
      Command_addLogMessage "BLE Emergency stop activated"%string [] ].
Proof.
  intros E Hi Hname Hfirst.
  rewrite (onWrite_emergency_stop value E).
  rewrite (emergency_stop_loop_found _ 0 i); [reflexivity | lia | exact Hname | exact Hfirst].
Qed.

(** X12: when no active profile is named [No Assist], the emergency stop
    changes nothing and reports nothing: after the line that echoes the
    command the handler makes no call at all, neither [changeAssistMode]
    nor [addLogMessage]. *)
Theorem emergency_stop_without_no_assist_is_silent value :
  c_str value = EMERGENCY_STOP ->
  (forall j, 0 <= j < NUM_ACTIVE_PROFILES -> profile_name j <> No_Assist) ->
  onWrite value
  = [ Command_Serial_println "BLE: Command received: "%string EMERGENCY_STOP ].
Proof.
  intros E Hnone.
  rewrite (onWrite_emergency_stop value E).
  rewrite emergency_stop_loop_none; [reflexivity|].
  intros j Hj. apply Hnone. lia.
Qed.

(** X13: the command handler changes the assist mode for no other command
    than [EMERGENCY_STOP], and then only to an active profile named
    [No Assist]. *)
Theorem only_emergency_stop_changes_mode value i :
  In (Command_changeAssistMode i) (onWrite value) ->
  c_str value = EMERGENCY_STOP
  /\ 0 <= i < NUM_ACTIVE_PROFILES
  /\ profile_name i = No_Assist.
Proof.
  unfold Command_onWrite. destruct value as [|b rest]; [intros []|].
  cbv zeta. intros [H|H]; [discriminate H|].
  destruct (bytes_eqb (c_str (b :: rest)) GET_STATUS).
  { destruct H as [H|[H|[]]]; discriminate H. }
  destruct (bytes_eqb (c_str (b :: rest)) GET_MODES).
  { destruct H as [H|[H|[]]]; discriminate H. }
  destruct (bytes_eqb (c_str (b :: rest)) EMERGENCY_STOP) eqn:E.
  - apply bytes_eqb_eq in E. apply emergency_stop_loop_calls in H.
    destruct H as [Hi Hn]. split; [exact E|]. split; [lia | exact Hn].
  - destruct H as [H|[]]; discriminate H.
Qed.

End CommandProperties.

(** ** The current characteristic *)

(** X14: the four bytes of the current characteristic are the two 16-bit
    values in little-endian order: each is a byte, and low byte plus 256
    times high byte gives the value back. *)
Theorem current_data_little_endian motor_current battery_current :
  0 <= motor_current < 65536 ->
  0 <= battery_current < 65536 ->
  exists b0 b1 b2 b3,
    current_data motor_current battery_current = [b0; b1; b2; b3]
    /\ (0 <= b0 < 256 /\ 0 <= b1 < 256 /\ 0 <= b2 < 256 /\ 0 <= b3 < 256)
    /\ b0 + 256 * b1 = motor_current
    /\ b2 + 256 * b3 = battery_current.
Proof.
  intros Hm Hb. unfold current_data.
  eexists _, _, _, _. split; [reflexivity|].
  change 255 with (Z.ones 8).
  rewrite !Z.land_ones, !Z.shiftr_div_pow2 by lia.
  change (2 ^ 8) with 256.
  repeat split; try (apply Z.mod_pos_bound; lia).
  - rewrite (Z.mod_small (motor_current / 256)) by (split; [apply Z.div_pos; lia | apply Z.div_lt_upper_bound; lia]).
    pose proof (Z.div_mod motor_current 256 ltac:(lia)). lia.
  - rewrite (Z.mod_small (battery_current / 256)) by (split; [apply Z.div_pos; lia | apply Z.div_lt_upper_bound; lia]).
    pose proof (Z.div_mod battery_current 256 ltac:(lia)). lia.
Qed.

(** ** The properties above at concrete inputs *)

Lemma calibration_always_usable_witness :
  (2 <= 4 /\ 3995 * 4 <= LONG_MAX)
  /\ exists r,
       calibrate_torque_sensor 4 1000 2048 false (hardware_reading [2000; 0; 2010; 5000])
       = Returns r
       /\ is_torque_calibration_complete (globals_after r) = true
       /\ (torque_standstill_calibrated (globals_after r) = 2048
           \/ 100 <= torque_standstill_calibrated (globals_after r) <= 3995).
Proof.
  assert (H1 : 2 <= 4) by (vm_compute; discriminate).
  assert (H2 : 3995 * 4 <= LONG_MAX) by (vm_compute; discriminate).
  split; [auto|].
  exact (calibration_always_usable 4 1000 2048 false
           (hardware_reading [2000; 0; 2010; 5000]) H1 H2).
Defined.

Lemma calibration_ignores_rejected_and_order_witness :
  (3995 * 4 <= LONG_MAX
   /\ Permutation
        (accepted_samples 4 1000 (hardware_reading [2000; 0; 2010; 5000]))
        (accepted_samples 4 1000 (hardware_reading [4095; 2010; 2000; 7])))
  /\ calibrate_torque_sensor 4 1000 2048 false (hardware_reading [2000; 0; 2010; 5000])
     = calibrate_torque_sensor 4 1000 2048 false (hardware_reading [4095; 2010; 2000; 7]).
Proof.
  assert (H1 : 3995 * 4 <= LONG_MAX) by (vm_compute; discriminate).
  assert (H2 : Permutation
                 (accepted_samples 4 1000 (hardware_reading [2000; 0; 2010; 5000]))
                 (accepted_samples 4 1000 (hardware_reading [4095; 2010; 2000; 7])))
    by (vm_compute; apply perm_swap).
  split; [auto|].
  exact (calibration_ignores_rejected_and_order 4 1000 2048 _ _ H1 H2).
Defined.

Lemma calibration_baseline_bracketed_witness :
  (3995 * 4 <= LONG_MAX
   /\ Z.quot 4 2 <= accepted_count 4 1000 (hardware_reading [2000; 0; 2010; 5000])
   /\ 0 < accepted_count 4 1000 (hardware_reading [2000; 0; 2010; 5000])
   /\ forall x,
        In x (accepted_samples 4 1000 (hardware_reading [2000; 0; 2010; 5000])) ->
        2000 <= x <= 2010)
  /\ exists r,
       calibrate_torque_sensor 4 1000 2048 false (hardware_reading [2000; 0; 2010; 5000])
       = Returns r
       /\ 2000 <= torque_standstill_calibrated (globals_after r) <= 2010.
Proof.
  assert (H1 : 3995 * 4 <= LONG_MAX) by (vm_compute; discriminate).
  assert (H2 : Z.quot 4 2
               <= accepted_count 4 1000 (hardware_reading [2000; 0; 2010; 5000]))
    by (vm_compute; discriminate).
  assert (H3 : 0 < accepted_count 4 1000 (hardware_reading [2000; 0; 2010; 5000]))
    by reflexivity.
  assert (H4 : forall x,
             In x (accepted_samples 4 1000 (hardware_reading [2000; 0; 2010; 5000])) ->
             2000 <= x <= 2010).
  { intros x [<-|[<-|[]]]; split; vm_compute; discriminate. }
  split; [auto|].
  exact (calibration_baseline_bracketed 4 1000 2048 _ 2000 2010 H1 H2 H3 H4).
Defined.

Lemma calibration_early_timeout_falls_back_witness :
  (10 <= INT_MAX
   /\ Z.of_nat 2 < Z.quot 10 2
   /\ wrap_ulong (millis_at (hardware_ticking 400 2000) 3
                  - millis_at (hardware_ticking 400 2000) 0)
      > wrap_ulong 1000)
  /\ calibrate_torque_sensor 10 1000 2048 false (hardware_ticking 400 2000)
     = Returns (run_ending 2048 Printed_failed).
Proof.
  assert (H1 : 10 <= INT_MAX) by (vm_compute; discriminate).
  assert (H2 : Z.of_nat 2 < Z.quot 10 2) by reflexivity.
  assert (H3 : wrap_ulong (millis_at (hardware_ticking 400 2000) 3
                           - millis_at (hardware_ticking 400 2000) 0)
               > wrap_ulong 1000) by reflexivity.
  split; [auto|].
  exact (calibration_early_timeout_falls_back 10 1000 2048 _ 2%nat H1 H2 H3).
Defined.

Lemma evaluation_keeps_no_memory_witness :
  (debug_mode (globals_with_baseline 2048)
     && debug_simulate_torque (globals_with_baseline 2048) = false)
  /\ update_torque_cycles 0 4095 10 (Float32.of_int 80) no_simulation
       ([100; 4000; 2050] ++ [3000]) (globals_with_baseline 2048)
     = update_torque 0 4095 10 (Float32.of_int 80) no_simulation
         (globals_with_baseline 2048) 3000
  /\ calibration
       (update_torque_cycles 0 4095 10 (Float32.of_int 80) no_simulation
          ([100; 4000; 2050] ++ [3000]) (globals_with_baseline 2048))
     = calibration (globals_with_baseline 2048)
  /\ raw_torque_value
       (update_torque_cycles 0 4095 10 (Float32.of_int 80) no_simulation
          ([100; 4000; 2050] ++ [3000]) (globals_with_baseline 2048))
     = 3000.
Proof.
  assert (H1 : debug_mode (globals_with_baseline 2048)
               && debug_simulate_torque (globals_with_baseline 2048) = false)
    by reflexivity.
  split; [exact H1|].
  exact (evaluation_keeps_no_memory 0 4095 10 (Float32.of_int 80) no_simulation
           (globals_with_baseline 2048) [100; 4000; 2050] 3000 H1).
Defined.

Lemma bridge_counters_count_forwarded_witness :
  (0 <= Bridge.bytes_forwarded_usb_to_vesc (Bridge.ready_with [x01; x02] [x03]) < 4294967296
   /\ 0 <= Bridge.bytes_forwarded_vesc_to_usb (Bridge.ready_with [x01; x02] [x03]) < 4294967296)
  /\ Bridge.bytes_forwarded_usb_to_vesc
       (Bridge.bridge_cycles (Bridge.wire_at 40000 [[x04]; []; [x05]] [[]; [x06; x07]]) 3
          (Bridge.ready_with [x01; x02] [x03]))
     = wrap_ulong
         (Bridge.bytes_forwarded_usb_to_vesc (Bridge.ready_with [x01; x02] [x03])
          + (Z.of_nat (List.length
                         (Bridge.vesc_tx
                            (Bridge.bridge_cycles
                               (Bridge.wire_at 40000 [[x04]; []; [x05]] [[]; [x06; x07]]) 3
                               (Bridge.ready_with [x01; x02] [x03]))))
             - Z.of_nat (List.length (Bridge.vesc_tx (Bridge.ready_with [x01; x02] [x03])))))
  /\ Bridge.bytes_forwarded_vesc_to_usb
       (Bridge.bridge_cycles (Bridge.wire_at 40000 [[x04]; []; [x05]] [[]; [x06; x07]]) 3
          (Bridge.ready_with [x01; x02] [x03]))
     = wrap_ulong
         (Bridge.bytes_forwarded_vesc_to_usb (Bridge.ready_with [x01; x02] [x03])
          + (Z.of_nat (List.length
                         (Bridge.forwarded_bytes
                            (Bridge.usb_tx
                               (Bridge.bridge_cycles
                                  (Bridge.wire_at 40000 [[x04]; []; [x05]] [[]; [x06; x07]]) 3
                                  (Bridge.ready_with [x01; x02] [x03])))))
             - Z.of_nat (List.length
                           (Bridge.forwarded_bytes
                              (Bridge.usb_tx (Bridge.ready_with [x01; x02] [x03])))))).
Proof.
  assert (H1 : 0 <= Bridge.bytes_forwarded_usb_to_vesc (Bridge.ready_with [x01; x02] [x03])
               < 4294967296) by (split; [discriminate | reflexivity]).
  assert (H2 : 0 <= Bridge.bytes_forwarded_vesc_to_usb (Bridge.ready_with [x01; x02] [x03])
               < 4294967296) by (split; [discriminate | reflexivity]).
  split; [auto|].
  exact (bridge_counters_count_forwarded
           (Bridge.wire_at 40000 [[x04]; []; [x05]] [[]; [x06; x07]]) 3
           (Bridge.ready_with [x01; x02] [x03]) H1 H2).
Defined.

Lemma bridge_drains_backlog_witness :
  ((forall k, Bridge.usb_arrival (Bridge.quiet_wire 0) k = [])
   /\ (forall k, Bridge.vesc_arrival (Bridge.quiet_wire 0) k = []))
  /\ (Bridge.vesc_tx
        (Bridge.bridge_cycles (Bridge.quiet_wire 0) 2
           (Bridge.ready_with (repeat x55 1100) (repeat x33 600)))
      = Bridge.vesc_tx (Bridge.ready_with (repeat x55 1100) (repeat x33 600))
        ++ firstn (512 * 2)
             (Bridge.usb_rx (Bridge.ready_with (repeat x55 1100) (repeat x33 600)))
      /\ Bridge.usb_rx
           (Bridge.bridge_cycles (Bridge.quiet_wire 0) 2
              (Bridge.ready_with (repeat x55 1100) (repeat x33 600)))
         = skipn (512 * 2)
             (Bridge.usb_rx (Bridge.ready_with (repeat x55 1100) (repeat x33 600))))
  /\ (Bridge.forwarded_bytes
        (Bridge.usb_tx
           (Bridge.bridge_cycles (Bridge.quiet_wire 0) 2
              (Bridge.ready_with (repeat x55 1100) (repeat x33 600))))
      = Bridge.forwarded_bytes
          (Bridge.usb_tx (Bridge.ready_with (repeat x55 1100) (repeat x33 600)))
        ++ firstn (512 * 2)
             (Bridge.vesc_rx (Bridge.ready_with (repeat x55 1100) (repeat x33 600)))
      /\ Bridge.vesc_rx
           (Bridge.bridge_cycles (Bridge.quiet_wire 0) 2
              (Bridge.ready_with (repeat x55 1100) (repeat x33 600)))
         = skipn (512 * 2)
             (Bridge.vesc_rx (Bridge.ready_with (repeat x55 1100) (repeat x33 600)))).
Proof.
  assert (H1 : forall k, Bridge.usb_arrival (Bridge.quiet_wire 0) k = [])
    by (intros k; reflexivity).
  assert (H2 : forall k, Bridge.vesc_arrival (Bridge.quiet_wire 0) k = [])
    by (intros k; reflexivity).
  split; [auto|].
  split.
  - exact (proj1 (bridge_drains_backlog (Bridge.quiet_wire 0) 2
                    (Bridge.ready_with (repeat x55 1100) (repeat x33 600))) H1).
  - exact (proj2 (bridge_drains_backlog (Bridge.quiet_wire 0) 2
                    (Bridge.ready_with (repeat x55 1100) (repeat x33 600))) H2).
Defined.

Lemma statistics_enter_the_data_stream_witness :
  (forall k,
      wrap_ulong (Bridge.millis_answer (Bridge.wire_at 30000 [] [[x02; x2a]]) k
                  - Bridge.last_stats Bridge.ready) >= 30000)
  /\ exists (G : list byte) (uptime_s usb_to_vesc vesc_to_usb usb_ago vesc_ago : Z)
            (active : bool),
       Bridge.usb_tx (Bridge.runVescBridge (Bridge.wire_at 30000 [] [[x02; x2a]])
                        Bridge.ready)
       = Bridge.usb_tx Bridge.ready ++ map Bridge.Forwarded G
         ++ [Bridge.Statistics uptime_s usb_to_vesc vesc_to_usb usb_ago vesc_ago active]
       /\ G ++ Bridge.vesc_rx (Bridge.runVescBridge
                                 (Bridge.wire_at 30000 [] [[x02; x2a]]) Bridge.ready)
          = Bridge.vesc_rx Bridge.ready
            ++ Bridge.arrived
                 (Bridge.vesc_arrival (Bridge.wire_at 30000 [] [[x02; x2a]]))
                 (Bridge.vesc_checks Bridge.ready) (S (List.length G)).
Proof.
  assert (H1 : forall k,
             wrap_ulong (Bridge.millis_answer (Bridge.wire_at 30000 [] [[x02; x2a]]) k
                         - Bridge.last_stats Bridge.ready) >= 30000)
    by (intros k; vm_compute; discriminate).
  split; [exact H1|].
  exact (statistics_enter_the_data_stream (Bridge.wire_at 30000 [] [[x02; x2a]])
           Bridge.ready H1).
Defined.

Lemma emergency_stop_switches_to_first_no_assist_witness :
  (c_str (EMERGENCY_STOP ++ [x00; x41]) = EMERGENCY_STOP
   /\ 0 <= 1 < 3
   /\ profiles_with_no_assist 1 = No_Assist
   /\ forall j, 0 <= j < 1 -> profiles_with_no_assist j <> No_Assist)
  /\ Command_onWrite 3 profiles_with_no_assist (EMERGENCY_STOP ++ [x00; x41])
     = [ Command_Serial_println "BLE: Command received: "%string EMERGENCY_STOP;
         Command_changeAssistMode 1;
         Command_addLogMessage "BLE Emergency stop activated"%string [] ].
Proof.
  assert (H1 : c_str (EMERGENCY_STOP ++ [x00; x41]) = EMERGENCY_STOP) by reflexivity.
  assert (H2 : 0 <= 1 < 3) by (split; [discriminate | reflexivity]).
  assert (H3 : profiles_with_no_assist 1 = No_Assist) by reflexivity.
  assert (H4 : forall j, 0 <= j < 1 -> profiles_with_no_assist j <> No_Assist).
  { intros j Hj. assert (j = 0) as -> by lia. discriminate. }
  split; [auto|].
  exact (emergency_stop_switches_to_first_no_assist 3 profiles_with_no_assist
           (EMERGENCY_STOP ++ [x00; x41]) 1 H1 H2 H3 H4).
Defined.

Lemma emergency_stop_without_no_assist_is_silent_witness :
  (c_str EMERGENCY_STOP = EMERGENCY_STOP
   /\ forall j, 0 <= j < 3 -> profiles_without_no_assist j <> No_Assist)
  /\ Command_onWrite 3 profiles_without_no_assist EMERGENCY_STOP
     = [ Command_Serial_println "BLE: Command received: "%string EMERGENCY_STOP ].
Proof.
  assert (H1 : c_str EMERGENCY_STOP = EMERGENCY_STOP) by reflexivity.
  assert (H2 : forall j, 0 <= j < 3 -> profiles_without_no_assist j <> No_Assist)
    by (intros j _; discriminate).
  split; [auto|].
  exact (emergency_stop_without_no_assist_is_silent 3 profiles_without_no_assist
           EMERGENCY_STOP H1 H2).
Defined.

Lemma only_emergency_stop_changes_mode_witness :
  In (Command_changeAssistMode 1)
     (Command_onWrite 3 profiles_with_no_assist EMERGENCY_STOP)
  /\ c_str EMERGENCY_STOP = EMERGENCY_STOP
  /\ 0 <= 1 < 3
  /\ profiles_with_no_assist 1 = No_Assist.
Proof.
  assert (H1 : In (Command_changeAssistMode 1)
                  (Command_onWrite 3 profiles_with_no_assist EMERGENCY_STOP))
    by (right; left; reflexivity).
  split; [exact H1|].
  exact (only_emergency_stop_changes_mode 3 profiles_with_no_assist
           EMERGENCY_STOP 1 H1).
Defined.

Lemma current_data_little_endian_witness :
  (0 <= 4660 < 65536 /\ 0 <= 255 < 65536)
  /\ exists b0 b1 b2 b3,
       current_data 4660 255 = [b0; b1; b2; b3]
       /\ (0 <= b0 < 256 /\ 0 <= b1 < 256 /\ 0 <= b2 < 256 /\ 0 <= b3 < 256)
       /\ b0 + 256 * b1 = 4660
       /\ b2 + 256 * b3 = 255.
Proof.
  assert (H1 : 0 <= 4660 < 65536) by (split; [discriminate | reflexivity]).
  assert (H2 : 0 <= 255 < 65536) by (split; [discriminate | reflexivity]).
  split; [auto|].
  exact (current_data_little_endian 4660 255 H1 H2).
Defined.

Lemma calibrated_at_rest_reports_zero_witness :
  (debug_mode (globals_with_baseline 0) = false
   /\ 3995 * 4 <= LONG_MAX
   /\ Z.quot 4 2 <= accepted_count 4 1000 (hardware_reading [2000; 0; 2000; 2000])
   /\ 0 < accepted_count 4 1000 (hardware_reading [2000; 0; 2000; 2000])
   /\ (forall x,
         In x (accepted_samples 4 1000 (hardware_reading [2000; 0; 2000; 2000])) ->
         x = 2000)
   /\ 10 <= INT_MAX
   /\ 2000 - 10 < 2007 < 2000 + 10)
  /\ exists g',
       calibrate_globals 4 1000 2048 (hardware_reading [2000; 0; 2000; 2000])
         (globals_with_baseline 0)
       = Returns g'
       /\ torque_standstill_calibrated (calibration g') = 2000
       /\ crank_torque_nm
            (update_torque 0 4095 10 (Float32.of_int 80) no_simulation g' 2007)
          = Float32.zero
       /\ filtered_torque
            (update_torque 0 4095 10 (Float32.of_int 80) no_simulation g' 2007)
          = Float32.zero.
Proof.
  assert (H1 : debug_mode (globals_with_baseline 0) = false) by reflexivity.
  assert (H2 : 3995 * 4 <= LONG_MAX) by (vm_compute; discriminate).
  assert (H3 : Z.quot 4 2
               <= accepted_count 4 1000 (hardware_reading [2000; 0; 2000; 2000]))
    by (vm_compute; discriminate).
  assert (H4 : 0 < accepted_count 4 1000 (hardware_reading [2000; 0; 2000; 2000]))
    by reflexivity.
  assert (H5 : forall x,
             In x (accepted_samples 4 1000 (hardware_reading [2000; 0; 2000; 2000])) ->
             x = 2000).
  { intros x [<-|[<-|[<-|[]]]]; reflexivity. }
  assert (H6 : 10 <= INT_MAX) by (vm_compute; discriminate).
  assert (H7 : 2000 - 10 < 2007 < 2000 + 10) by (split; reflexivity).
  split; [repeat split; try assumption; apply H7|].
  exact (calibrated_at_rest_reports_zero 4 1000 2048 0 4095 10 (Float32.of_int 80)
           no_simulation (hardware_reading [2000; 0; 2000; 2000])
           (globals_with_baseline 0) 2000 2007 H1 H2 H3 H4 H5 H6 H7).
Defined.
